(** * bqls: position mapping, node location, hover resolution and the
  diagnostic scheduler

  A shallow embedding of [langserver/diagnostic.go] (the scheduler loop),
  of the hover code of package [source] ([TermDocument] and its helpers)
  and of [langserver/internal/source/project.go].

  Go values are modelled as follows: [int] is a 64-bit two's-complement
  integer, written as [Z] with the wrap-around spelled out; a Go [string]
  is a byte sequence, written as [string] (one [ascii] per byte); a nil
  pointer or nil interface is [None]; a pair [(v, err)] is a [result];
  a run-time panic is an outcome of its own. *)

From Stdlib Require Import ZArith Lia Ascii String List Bool.
From stdpp Require Import base option list strings gmap.

Local Open Scope Z_scope.

Set Warnings "-register-all".

(** ** Go's [int] *)

Module GoInt.

Definition MaxInt : Z := 2 ^ 63 - 1.
Definition MinInt : Z := - 2 ^ 63.

(** Two's-complement wrap-around of 64-bit signed arithmetic. *)
Definition wrap (z : Z) : Z := (z + 2 ^ 63) mod 2 ^ 64 - 2 ^ 63.

End GoInt.

(** ** Package [strings] and the byte view of a Go string *)

Module Strings.

Definition LF : ascii := ascii_of_nat 10.
Definition CR : ascii := ascii_of_nat 13.

(** [len(s)]: the number of bytes. *)
Definition len (s : string) : Z := Z.of_nat (String.length s).

(** [strings.Split(s, sep)] for a one-byte separator: the pieces between
    the separators, in order; always at least one piece. *)
Fixpoint Split (s : string) (sep : ascii) : list string :=
  match s with
  | EmptyString => [EmptyString]
  | String c rest =>
      if Ascii.eqb c sep then EmptyString :: Split rest sep
      else match Split rest sep with
           | l :: ls => String c l :: ls
           | [] => [String c EmptyString]
           end
  end.

(** [strings.Join(elems, sep)]. *)
Fixpoint Join (elems : list string) (sep : string) : string :=
  match elems with
  | [] => EmptyString
  | [e] => e
  | e :: rest => e +:+ sep +:+ Join rest sep
  end.

(** [strings.HasPrefix(s, prefix)]. *)
Fixpoint HasPrefix (s prefix : string) : bool :=
  match prefix, s with
  | EmptyString, _ => true
  | String p ps, String c cs => Ascii.eqb c p && HasPrefix cs ps
  | String _ _, EmptyString => false
  end.

Fixpoint drop_bytes (n : nat) (s : string) : string :=
  match n, s with
  | O, _ => s
  | S n', String _ cs => drop_bytes n' cs
  | S _, EmptyString => EmptyString
  end.

(** [strings.TrimPrefix(s, prefix)]: [s] without the leading [prefix],
    or [s] itself when it does not start with it. *)
Definition TrimPrefix (s prefix : string) : string :=
  if HasPrefix s prefix then drop_bytes (String.length prefix) s else s.

Fixpoint contains_byte (c : ascii) (s : string) : bool :=
  match s with
  | EmptyString => false
  | String d ds => Ascii.eqb c d || contains_byte c ds
  end.

(** [strings.TrimLeft(s, cutset)]: [s] without its longest leading run
    of bytes that occur in [cutset]. *)
Fixpoint TrimLeft (s cutset : string) : string :=
  match s with
  | EmptyString => EmptyString
  | String c cs => if contains_byte c cutset then TrimLeft cs cutset else s
  end.

End Strings.

(** ** Package [bufio]: a [Scanner] over an in-memory string, split with
  [ScanLines] *)

Module Bufio.
Import Strings.

Definition MaxScanTokenSize : Z := 64 * 1024.

(** [dropCR]: a line without its trailing carriage return, if any. *)
Fixpoint dropCR (data : string) : string :=
  match data with
  | EmptyString => EmptyString
  | String c EmptyString => if Ascii.eqb c CR then EmptyString else data
  | String c rest => String c (dropCR rest)
  end.

(** The bytes before the first newline, and what follows that newline
    (nothing when there is no newline). *)
Fixpoint cutLine (data : string) : string * string :=
  match data with
  | EmptyString => (EmptyString, EmptyString)
  | String c rest =>
      if Ascii.eqb c LF then (EmptyString, rest)
      else let '(line, rest') := cutLine rest in (String c line, rest')
  end.

Fixpoint take_bytes (n : nat) (s : string) : string :=
  match n, s with
  | O, _ => EmptyString
  | S n', String c cs => String c (take_bytes n' cs)
  | S _, EmptyString => EmptyString
  end.

(** The scanner either still reads its input, or has stopped with
    [ErrTooLong] while its buffer holds [MaxScanTokenSize] bytes of a
    line whose end it never saw. *)
Inductive Scanner : Type :=
| Reading (input : string)
| TooLong (buffered : string).

Definition NewScanner (r : string) : Scanner := Reading r.

(** One call of [Scan] followed by [Text]: the new scanner, the token
    and the boolean [Scan] returned.  A line must fit the buffer with
    its end in sight: at most [MaxScanTokenSize - 1] bytes before the
    newline or the end of input.  After a [Scan] that returned false
    [Text] is empty; a [Scan] called after [ErrTooLong] hands out the
    buffered bytes as a last token (the split function is then called
    as at the end of input). *)
Definition Scan (s : Scanner) : Scanner * string * bool :=
  match s with
  | TooLong buffered => (Reading EmptyString, dropCR buffered, true)
  | Reading EmptyString => (Reading EmptyString, EmptyString, false)
  | Reading data =>
      let '(line, rest) := cutLine data in
      if len line <? MaxScanTokenSize
      then (Reading rest, dropCR line, true)
      else (TooLong (take_bytes (Z.to_nat MaxScanTokenSize) line),
            EmptyString, false)
  end.

End Bufio.

(** ** Package [lsp] *)

Module Lsp.

Record Position : Type := { Line : Z; Character : Z }.

Record MarkedString : Type := { Language : string; Value : string }.

Definition DocumentURI : Type := string.

End Lsp.

(** ** The position mapper of package [source] *)

Module PositionMapper.
Import GoInt Strings Bufio Lsp.

(** The loop of [positionToByteOffset]: [n] rounds of [buf.Scan()] and
    [offset += len([]byte(buf.Text())) + 1]. *)
Fixpoint scanLoop (n : nat) (buf : Scanner) (offset : Z) : Z :=
  match n with
  | O => offset
  | S n' =>
      let '(buf', text, _) := Scan buf in
      scanLoop n' buf' (wrap (offset + (len text + 1)))
  end.

Definition positionToByteOffset (sql : string) (position : Position) : Z :=
  let buf := NewScanner sql in
  let offset := scanLoop (Z.to_nat (Line position)) buf 0 in
  wrap (offset + Character position).

(** The loop of [byteOffsetToPosition] over the remaining lines. *)
Fixpoint byteOffsetLoop (lines : list string) (line offset : Z)
  : Position * bool :=
  match lines with
  | [] => ({| Line := 0; Character := 0 |}, false)
  | l :: rest =>
      if offset <? len l + 1
      then ({| Line := line; Character := offset |}, true)
      else byteOffsetLoop rest (wrap (line + 1)) (wrap (offset - (len l + 1)))
  end.

Definition byteOffsetToPosition (sql : string) (offset : Z) : Position * bool :=
  byteOffsetLoop (Split sql LF) 0 offset.

End PositionMapper.

(** ** Package [types]: parse locations *)

Module Types.

(** A [ParseLocationRange]: the byte offsets of its start and end
    points. *)
Record ParseLocationRange : Type := { StartByteOffset : Z; EndByteOffset : Z }.

(** The test [startOffset <= termOffset && termOffset <= endOffset] on an
    optional range; a node without a range is never a candidate. *)
Definition covers (lRange : option ParseLocationRange) (termOffset : Z) : bool :=
  match lRange with
  | None => false
  | Some r => (StartByteOffset r <=? termOffset) && (termOffset <=? EndByteOffset r)
  end.

End Types.

(** ** Package [ast]: the surface syntax tree *)

Module Ast.
Import Types.

Record PathExpression : Type :=
  { path_range : option ParseLocationRange;
    (** the names of the identifiers of the path, in order *)
    Names : list string }.

(** The node kinds the hover code distinguishes; every other kind is an
    [OtherNode].  The identifier leaves of a path expression are kept as
    names only: no search asks for them. *)
Inductive Node : Type :=
| PathExpressionNode (path : PathExpression)
| TablePathExpressionNode (lRange : option ParseLocationRange)
    (PathExpr : option PathExpression) (rest : list Node)
| SelectColumnNode (lRange : option ParseLocationRange)
    (Expression : Node) (Alias : option string)
| OtherNode (lRange : option ParseLocationRange) (children : list Node).

Definition ParseLocationRange (n : Node) : option Types.ParseLocationRange :=
  match n with
  | PathExpressionNode p => path_range p
  | TablePathExpressionNode r _ _ => r
  | SelectColumnNode r _ _ => r
  | OtherNode r _ => r
  end.

(** A node as the Go code holds it: the node together with its parent
    link.  The chain of parents is finite, the tree being built once. *)
Inductive Located : Type :=
| At (self : Node) (parent : option Located).

Definition self (n : Located) : Node := match n with At s _ => s end.
Definition Parent (n : Located) : option Located := match n with At _ p => p end.

(** [ast.Walk]: every node of the tree, parents before children,
    children in order. *)
Fixpoint Walk (parent : option Located) (n : Node) {struct n} : list Located :=
  let me := At n parent in
  me :: match n with
        | PathExpressionNode _ => []
        | TablePathExpressionNode _ pe rest =>
            match pe with
            | Some p => [At (PathExpressionNode p) (Some me)]
            | None => []
            end ++ flat_map (Walk (Some me)) rest
        | SelectColumnNode _ e _ => Walk (Some me) e
        | OtherNode _ children => flat_map (Walk (Some me)) children
        end.

(** The type parameters of [searchAstNode] and [lookupNode]
    (the constraint [astNode]). *)
Inductive Kind : Type :=
| TablePathExpressionKind
| PathExpressionKind
| SelectColumnKind.

(** The type assertion [n.(T)]. *)
Definition isKind (T : Kind) (n : Node) : bool :=
  match T, n with
  | TablePathExpressionKind, TablePathExpressionNode _ _ _ => true
  | PathExpressionKind, PathExpressionNode _ => true
  | SelectColumnKind, SelectColumnNode _ _ _ => true
  | _, _ => false
  end.

End Ast.

(** ** Package [resolved_ast]: the resolved tree of one statement *)

Module Rast.
Import Types.

Record Column : Type :=
  { Name : string;
    TableName : string;
    (** [Type().TypeName(types.ProductExternal)] *)
    TypeName : string }.

Record FunctionSignature : Type :=
  { (** [DebugString(functionName, verbose)] *)
    DebugString : string -> bool -> string }.

Record Function : Type :=
  { SQLName : string; Signatures : list FunctionSignature }.

(** The node kinds the hover code distinguishes.  Scans that the input
    walk does not know are [OtherScanNode]; nodes that are neither scans
    nor one of the three expression kinds are [OtherNode]. *)
Inductive Node : Type :=
| ProjectScanNode (lRange : option ParseLocationRange) (ColumnList : list Column)
    (expr_list : list Node) (InputScan : option Node)
| WithScanNode (lRange : option ParseLocationRange) (ColumnList : list Column)
    (with_entry_list : list Node) (Query : option Node)
| OrderByScanNode (lRange : option ParseLocationRange) (ColumnList : list Column)
    (InputScan : option Node) (order_by_item_list : list Node)
| TableScanNode (lRange : option ParseLocationRange) (ColumnList : list Column)
    (Alias : string)
| WithRefScanNode (lRange : option ParseLocationRange) (ColumnList : list Column)
    (WithQueryName : string)
| OtherScanNode (lRange : option ParseLocationRange) (ColumnList : list Column)
    (children : list Node)
| FunctionCallNode (lRange : option ParseLocationRange) (Function_ : Function)
    (argument_list : list Node)
| GetStructFieldNode (lRange : option ParseLocationRange) (type_name : string)
    (expr : Node)
| ColumnRefNode (lRange : option ParseLocationRange) (Column_ : option Column)
| OtherNode (lRange : option ParseLocationRange) (children : list Node).

Definition ParseLocationRange (n : Node) : option Types.ParseLocationRange :=
  match n with
  | ProjectScanNode r _ _ _ | WithScanNode r _ _ _ | OrderByScanNode r _ _ _
  | TableScanNode r _ _ | WithRefScanNode r _ _ | OtherScanNode r _ _
  | FunctionCallNode r _ _ | GetStructFieldNode r _ _ | ColumnRefNode r _
  | OtherNode r _ => r
  end.

(** The type assertion [n.(rast.ScanNode)]. *)
Definition isScanNode (n : Node) : bool :=
  match n with
  | ProjectScanNode _ _ _ _ | WithScanNode _ _ _ _ | OrderByScanNode _ _ _ _
  | TableScanNode _ _ _ | WithRefScanNode _ _ _ | OtherScanNode _ _ _ => true
  | _ => false
  end.

Definition isFunctionCallNode (n : Node) : bool :=
  match n with FunctionCallNode _ _ _ => true | _ => false end.

Definition isGetStructFieldNode (n : Node) : bool :=
  match n with GetStructFieldNode _ _ _ => true | _ => false end.

Definition isColumnRefNode (n : Node) : bool :=
  match n with ColumnRefNode _ _ => true | _ => false end.

(** [ColumnList()] of a scan node. *)
Definition ColumnList (n : Node) : list Column :=
  match n with
  | ProjectScanNode _ cs _ _ | WithScanNode _ cs _ _ | OrderByScanNode _ cs _ _
  | TableScanNode _ cs _ | WithRefScanNode _ cs _ | OtherScanNode _ cs _ => cs
  | _ => []
  end.

Definition opt_walk (walk : Node -> list Node) (n : option Node) : list Node :=
  match n with
  | Some c => walk c
  | None => []
  end.

(** [rast.Walk]: every node of the tree, parents before children, the
    children in the order of the node's fields. *)
Fixpoint Walk (n : Node) : list Node :=
  n :: match n with
       | ProjectScanNode _ _ exprs input => flat_map Walk exprs ++ opt_walk Walk input
       | WithScanNode _ _ entries query => flat_map Walk entries ++ opt_walk Walk query
       | OrderByScanNode _ _ input items => opt_walk Walk input ++ flat_map Walk items
       | TableScanNode _ _ _ => []
       | WithRefScanNode _ _ _ => []
       | OtherScanNode _ _ children => flat_map Walk children
       | FunctionCallNode _ _ args => flat_map Walk args
       | GetStructFieldNode _ _ e => Walk e
       | ColumnRefNode _ _ => []
       | OtherNode _ children => flat_map Walk children
       end.

End Rast.

(** ** Errors and outcomes *)

Module Errors.

(** An argument of a format verb that prints a syntax node ([%s] of
    [DebugString(0)], [%v] of a resolved node). *)
Inductive FmtArg : Type :=
| ArgAst (n : Ast.Node)
| ArgRast (n : Rast.Node).

(** A Go [error]: one handed over by a collaborator, one made by
    [fmt.Errorf(format, args...)], or one wrapping another through
    the verb [%w], which ends the format. *)
Inductive error : Type :=
| External (description : string)
| Errorf (format : string) (args : list FmtArg)
| Wrapf (format : string) (err : error).

(** The pair [(value, err)] a fallible function returns. *)
Inductive result (A : Type) : Type :=
| Ok (a : A)
| Err (e : error).
Arguments Ok {A} a.
Arguments Err {A} e.

(** What a call does: it returns a value with a nil error, it returns
    a non-nil error, or it panics (nil dereference). *)
Inductive outcome (A : Type) : Type :=
| Returns (a : A)
| Fails (e : error)
| Panics.
Arguments Returns {A} a.
Arguments Fails {A} e.
Arguments Panics {A}.

End Errors.

(** ** Package [bigquery]: table metadata *)

Module Bigquery.

Record Time : Type := { Format : string -> string }.

Record FieldSchema : Type :=
  { Name : string; Type_ : string; Description : string }.

Record TableMetadata : Type :=
  { FullID : string;
    TableDescription : string;
    CreationTime : Time;
    LastModifiedTime : Time;
    Schema : list FieldSchema }.

End Bigquery.

(** ** Package [source]: the document cache, the node locator and the
  hover resolver *)

Module Source.
Import GoInt Strings Lsp Types Errors.
Export PositionMapper.

Record File : Type := { RawText : string; Version : Z }.

(** The struct [Schema] the table schema is decoded into. *)
Inductive Schema : Type :=
| MkSchema (Name Type_ Mode Description : string) (Fields : list Schema).

Record AnalyzerOutput : Type := { Statement : Rast.Node }.

(** The parsed file [ParseFile] returns.  Its type is not under src/:
    the three members [TermDocument] uses are its fields. *)
Record ParsedFile : Type :=
  { Node : Ast.Node;
    fixTermOffsetForNode : Z -> Z;
    FindTargetAnalyzeOutput : Z -> option AnalyzerOutput }.

(** A [Project].  Modelled from the spec: the Document Cache (package
    [cache] is not under src/) maps a URI to its file, [Get] of an
    unknown URI is the nil pointer [GetFile] tests for, [Put] replaces
    and [Delete] removes.  The other fields are the collaborators that
    the hover code calls and that are not under src/ either: the parser
    and analyzer ([ParseFile]), the Schema Metadata Store
    ([getTableMetadataFromPath]) and the JSON and YAML encoders. *)
Record Project : Type :=
  { rootPath : string;
    cache : gmap string File;
    ParseFile : string -> string -> ParsedFile;
    getTableMetadataFromPath : string -> result Bigquery.TableMetadata;
    ToJSONFields : list Bigquery.FieldSchema -> result string;
    jsonUnmarshal : string -> result (list Schema);
    yamlMarshal : list Schema -> result string }.

Definition with_cache (p : Project) (c : gmap string File) : Project :=
  {| rootPath := rootPath p; cache := c; ParseFile := ParseFile p;
     getTableMetadataFromPath := getTableMetadataFromPath p;
     ToJSONFields := ToJSONFields p; jsonUnmarshal := jsonUnmarshal p;
     yamlMarshal := yamlMarshal p |}.

(** *** project.go *)

(** [UpdateFile]: [p.cache.Put(path, text)] hands the cache the text
    only; the version kept beside the text here is read by no code. *)
Definition UpdateFile (p : Project) (path text : string) (version : Z) : Project :=
  with_cache p (<[path := {| RawText := text; Version := version |}]> (cache p)).

Definition GetFile (p : Project) (path : string) : string * bool :=
  match cache p !! path with
  | None => (EmptyString, false)
  | Some policy => (RawText policy, true)
  end.

Definition DeleteFile (p : Project) (path : string) : Project :=
  with_cache p (delete path (cache p)).

(** [NewProject(rootPath)]: the cache is made by [cache.NewGlobalCache],
    whose error is handed on.  The methods of [Project] that live in
    other files come with [methods]. *)
Definition NewProject (methods : Project)
    (NewGlobalCache : string -> result (gmap string File)) (rootPath : string)
  : result Project :=
  match NewGlobalCache rootPath with
  | Err err => Err err
  | Ok cache =>
      Ok {| rootPath := rootPath; cache := cache;
            ParseFile := ParseFile methods;
            getTableMetadataFromPath := getTableMetadataFromPath methods;
            ToJSONFields := ToJSONFields methods;
            jsonUnmarshal := jsonUnmarshal methods;
            yamlMarshal := yamlMarshal methods |}
  end.

(** *** The node locator *)

(** The callback of [searchAstNode] and [searchResolvedAstNode]: a node
    of the wanted kind whose range covers the offset replaces the
    current target. *)
Definition visit {N : Type} (wanted : N -> bool)
    (lRange : N -> option ParseLocationRange) (termOffset : Z)
    (target : option N) (n : N) : option N :=
  if wanted n && covers (lRange n) termOffset then Some n else target.

Definition searchAstNode (T : Ast.Kind) (node : Ast.Node) (termOffset : Z)
  : option Ast.Located :=
  fold_left
    (visit (fun n => Ast.isKind T (Ast.self n))
           (fun n => Ast.ParseLocationRange (Ast.self n)) termOffset)
    (Ast.Walk None node) None.

Definition searchResolvedAstNode (T : Rast.Node -> bool)
    (output : AnalyzerOutput) (termOffset : Z) : option Rast.Node :=
  fold_left (visit T Rast.ParseLocationRange termOffset)
    (Rast.Walk (Statement output)) None.

(** [lookupNode[T](n)] for a non-nil [n]; [lookupNode[T](nil)] is the
    [None] of the last line. *)
Fixpoint lookupNode (T : Ast.Kind) (n : Ast.Located) : option Ast.Located :=
  if Ast.isKind T (Ast.self n) then Some n
  else match n with
       | Ast.At _ (Some parent) => lookupNode T parent
       | Ast.At _ None => None
       end.

(** *** Rendering *)

Definition dot : string := String (ascii_of_nat 46) EmptyString.
Definition newline : string := String LF EmptyString.
Definition markdown : string := "markdown".
Definition yaml : string := "yaml".
Definition layout : string := "2006-01-02 15:04:05".

(** [fmt.Sprintf("%s: %s", name, typeName)] *)
Definition renderColumn (name typeName : string) : MarkedString :=
  {| Language := markdown; Value := name +:+ ": " +:+ typeName |}.

(** [fmt.Sprintf("%s: %s\n%s", c.Name, c.Type, c.Description)] *)
Definition renderField (c : Bigquery.FieldSchema) : MarkedString :=
  {| Language := markdown;
     Value := Bigquery.Name c +:+ ": " +:+ Bigquery.Type_ c +:+ newline
              +:+ Bigquery.Description c |}.

Definition buildBigQueryTableMetadataMarkedString (p : Project)
    (metadata : Bigquery.TableMetadata) : outcome (list MarkedString) :=
  let resultStr := "## " +:+ Bigquery.FullID metadata in
  let resultStr :=
    if 0 <? len (Bigquery.TableDescription metadata)
    then resultStr +:+ newline +:+ Bigquery.TableDescription metadata
    else resultStr in
  let resultStr :=
    resultStr +:+ newline +:+ "created at "
    +:+ Bigquery.Format (Bigquery.CreationTime metadata) layout in
  let resultStr :=
    resultStr +:+ newline +:+ "last modified at "
    +:+ Bigquery.Format (Bigquery.LastModifiedTime metadata) layout in
  match ToJSONFields p (Bigquery.Schema metadata) with
  | Err err => Fails (Wrapf "failed to convert schema to json: %w" err)
  | Ok schemaJson =>
      match jsonUnmarshal p schemaJson with
      | Err err => Fails (Wrapf "failed to unmarshal json: %w" err)
      | Ok result =>
          match yamlMarshal p result with
          | Err err => Fails (Wrapf "failed to marshal yaml: %w" err)
          | Ok schemaYaml =>
              Returns [ {| Language := markdown; Value := resultStr |};
                        {| Language := yaml; Value := schemaYaml |} ]
          end
      end
  end.

(** [createTableNameFromTablePathExpressionNode] is not under src/; the
    older revision of [createTableMarkedString] has its body in line: no
    path expression gives no name, otherwise the names are joined with
    dots. *)
Definition createTableNameFromTablePathExpressionNode (node : Ast.Node)
  : option string :=
  match node with
  | Ast.TablePathExpressionNode _ (Some pathExpr) _ =>
      Some (Join (Ast.Names pathExpr) dot)
  | _ => None
  end.

Definition createTableMarkedString (p : Project) (node : Ast.Located)
  : outcome (list MarkedString) :=
  match createTableNameFromTablePathExpressionNode (Ast.self node) with
  | None => Returns []
  | Some tablePath =>
      match getTableMetadataFromPath p tablePath with
      | Err err => Fails (Wrapf "failed to get table metadata: %w" err)
      | Ok targetTable => buildBigQueryTableMetadataMarkedString p targetTable
      end
  end.

(** *** The select-column strategy *)

Definition getSelectColumnName (targetNode : Ast.Node) : option string :=
  match targetNode with
  | Ast.SelectColumnNode _ (Ast.PathExpressionNode path) _ =>
      Some (Join (Ast.Names path) dot)
  | _ => None
  end.

(** One round of the loop over [scanNodes]; the state is the pair of
    [mostNarrowWidth] and [targetScanNode].  The loop assigns the
    second and never the first. *)
Definition narrowStep (st : Z * option Rast.Node) (node : Rast.Node)
  : Z * option Rast.Node :=
  let '(mostNarrowWidth, targetScanNode) := st in
  match Rast.ParseLocationRange node with
  | None => st
  | Some lrange =>
      let width := wrap (EndByteOffset lrange - StartByteOffset lrange) in
      if width <? mostNarrowWidth
      then (mostNarrowWidth, Some node)
      else st
  end.

Definition selectTargetScanNode (output : AnalyzerOutput) : option Rast.Node :=
  let scanNodes := List.filter Rast.isScanNode (Rast.Walk (Statement output)) in
  snd (fold_left narrowStep scanNodes (MaxInt, None)).

(** The loop [for tmpScanNode != nil]: down the inputs of the
    pass-through scans to a table scan or a reference to a WITH query;
    any other scan ends the walk. *)
Fixpoint collectRefNames (tmpScanNode : Rast.Node) : list string :=
  match tmpScanNode with
  | Rast.ProjectScanNode _ _ _ (Some input) => collectRefNames input
  | Rast.WithScanNode _ _ _ (Some query) => collectRefNames query
  | Rast.OrderByScanNode _ _ (Some input) _ => collectRefNames input
  | Rast.TableScanNode _ _ alias =>
      if String.eqb alias EmptyString then [] else [alias]
  | Rast.WithRefScanNode _ _ name => [name]
  | _ => []
  end.

(** The loop that removes the table prefixes. *)
Definition removeTablePrefix (columnName refName : string) : string :=
  let tablePrefix := refName +:+ dot in
  if HasPrefix columnName tablePrefix
  then TrimPrefix columnName tablePrefix
  else columnName.

Definition getSelectColumnNodeToAnalyzedOutputCoumnNode
    (output : AnalyzerOutput) (column : Ast.Node) (termOffset : Z)
  : outcome Rast.Column :=
  let targetScanNode := selectTargetScanNode output in
  let refNames :=
    match targetScanNode with
    | Some n => collectRefNames n
    | None => []
    end in
  match getSelectColumnName column with
  | None => Fails (Errorf "failed getSelectColumnName: %s" [ArgAst column])
  | Some columnName =>
      let columnName := fold_left removeTablePrefix refNames columnName in
      match targetScanNode with
      | None => Panics
      | Some scan =>
          match List.find (fun c => String.eqb (Rast.Name c) columnName)
                          (Rast.ColumnList scan) with
          | Some c => Returns c
          | None => Fails (Errorf "failed to find column info" [])
          end
      end
  end.

(** *** The hover resolver *)

(** [node.Function()] of a function call node. *)
Definition functionOf (node : Rast.Node) : Rast.Function :=
  match node with
  | Rast.FunctionCallNode _ f _ => f
  | _ => {| Rast.SQLName := EmptyString; Rast.Signatures := [] |}
  end.

(** The block of the function-call strategy: the heading and one
    signature per line. *)
Definition renderFunction (f : Rast.Function) : MarkedString :=
  let sigs := map (fun sig => Rast.DebugString sig (Rast.SQLName f) true)
                  (Rast.Signatures f) in
  {| Language := markdown;
     Value := "## " +:+ Rast.SQLName f +:+ newline +:+ newline
              +:+ Join sigs newline |}.

(** [node.Type().TypeName(types.ProductExternal)] of a struct field
    access. *)
Definition typeOf (node : Rast.Node) : string :=
  match node with
  | Rast.GetStructFieldNode _ ty _ => ty
  | _ => EmptyString
  end.

(** [term.Column()] of a column reference. *)
Definition columnOf (term : Rast.Node) : option Rast.Column :=
  match term with
  | Rast.ColumnRefNode _ c => c
  | _ => None
  end.

(** The loop over [tableMetadata.Schema]: the first field named as the
    column. *)
Definition findField (column : Rast.Column) (schema : list Bigquery.FieldSchema)
  : option Bigquery.FieldSchema :=
  List.find (fun c => String.eqb (Rast.Name column) (Bigquery.Name c)) schema.

(** The last block of [TermDocument]: the select-column strategy and the
    final [return nil, nil]. *)
Definition selectColumnStrategy (p : Project) (targetNode : Ast.Located)
    (output : AnalyzerOutput) (termOffset : Z) : outcome (list MarkedString) :=
  match lookupNode Ast.SelectColumnKind targetNode with
  | Some selectColumnNode =>
      match getSelectColumnNodeToAnalyzedOutputCoumnNode
              output (Ast.self selectColumnNode) termOffset with
      | Panics => Panics
      | Fails err => Fails (Wrapf "failed to get column info: %w" err)
      | Returns column =>
          match getTableMetadataFromPath p (Rast.TableName column) with
          | Err _ =>
              Returns [renderColumn (Rast.Name column) (Rast.TypeName column)]
          | Ok tableMetadata =>
              match findField column (Bigquery.Schema tableMetadata) with
              | Some c => Returns [renderField c]
              | None => Returns []
              end
          end
      end
  | None => Returns []
  end.

(** The block of the column-reference strategy; [None] when control
    leaves the block without a return. *)
Definition columnRefStrategy (p : Project) (output : AnalyzerOutput)
    (termOffset : Z) : option (outcome (list MarkedString)) :=
  match searchResolvedAstNode Rast.isColumnRefNode output termOffset with
  | Some term =>
      match columnOf term with
      | None => Some (Fails (Errorf "failed to find term: %v" [ArgRast term]))
      | Some column =>
          match getTableMetadataFromPath p (Rast.TableName column) with
          | Err _ =>
              Some (Returns [renderColumn (Rast.Name column) (Rast.TypeName column)])
          | Ok tableMetadata =>
              match findField column (Bigquery.Schema tableMetadata) with
              | Some c => Some (Returns [renderField c])
              | None => None
              end
          end
      end
  | None => None
  end.

(** [TermDocument] from the statement [output, ok := ...] on. *)
Definition resolveInStatement (p : Project) (parsedFile : ParsedFile)
    (targetNode : Ast.Located) (termOffset : Z) : outcome (list MarkedString) :=
  match FindTargetAnalyzeOutput parsedFile termOffset with
  | None => Returns []
  | Some output =>
      match searchResolvedAstNode Rast.isFunctionCallNode output termOffset with
      | Some node => Returns [renderFunction (functionOf node)]
      | None =>
          match searchResolvedAstNode Rast.isGetStructFieldNode output termOffset with
          | Some node => Returns [ {| Language := markdown; Value := typeOf node |} ]
          | None =>
              match columnRefStrategy p output termOffset with
              | Some r => r
              | None => selectColumnStrategy p targetNode output termOffset
              end
          end
      end
  end.

Definition TermDocument (p : Project) (uri : string) (position : Position)
  : outcome (list MarkedString) :=
  match cache p !! uri with
  | None => Panics
  | Some sql =>
      let parsedFile := ParseFile p uri (RawText sql) in
      let termOffset := positionToByteOffset (RawText sql) position in
      let termOffset := fixTermOffsetForNode parsedFile termOffset in
      match searchAstNode Ast.PathExpressionKind (Node parsedFile) termOffset with
      | None => Returns []
      | Some targetNode =>
          match lookupNode Ast.TablePathExpressionKind targetNode with
          | Some tableNode =>
              match createTableMarkedString p tableNode with
              | Panics => Panics
              | Fails err =>
                  Fails (Wrapf "failed to create table marked string: %w" err)
              | Returns result =>
                  if 0 <? Z.of_nat (length result)
                  then Returns result
                  else resolveInStatement p parsedFile targetNode termOffset
              end
          | None => resolveInStatement p parsedFile targetNode termOffset
          end
      end
  end.

End Source.

(** ** The older revision of the hover code

  It differs from the one above in the order of the strategies and in
  how the select column is named; [lookupNode] is the same in both. *)

Module Revision0.
Import Strings.

(** The explicit alias first, then the dotted path of the expression. *)
Definition getSelectColumnName (targetNode : Ast.Node) : option string :=
  match targetNode with
  | Ast.SelectColumnNode _ _ (Some alias) => Some alias
  | Ast.SelectColumnNode _ (Ast.PathExpressionNode path) None =>
      Some (Join (Ast.Names path) Source.dot)
  | _ => None
  end.

(** The body of the loop over the table scans: the prefix made of the
    alias and a dot is tested with [strings.HasPrefix] and removed with
    [strings.TrimLeft], whose second argument is a set of bytes. *)
Definition removeTablePrefix (columnName alias : string) : string :=
  let tablePrefix := alias +:+ Source.dot in
  if HasPrefix columnName tablePrefix
  then TrimLeft columnName tablePrefix
  else columnName.

End Revision0.

(** ** Package [langserver]: the diagnostic scheduler *)

Module Langserver.
Import Lsp.

(** A cancel function is named by the context it cancels: contexts are
    numbered in the order [context.WithCancel] makes them. *)
Definition CancelFunc : Type := nat.

(** The state the loop of [diagnostic] works on: its map [running];
    the contexts made so far, each with the URI of the round that made
    it; the contexts whose cancel function has been called; and the
    goroutines started, each with its context and URI. *)
Record Scheduler : Type :=
  { running : gmap DocumentURI CancelFunc;
    contexts : list DocumentURI;
    cancelled : gset CancelFunc;
    started : list (CancelFunc * DocumentURI) }.

Definition initial : Scheduler :=
  {| running := ∅; contexts := []; cancelled := ∅; started := [] |}.

(** [cancel, ok := running[uri]; if ok { cancel() }] *)
Definition cancelPrevious (uri : DocumentURI) (s : Scheduler) : Scheduler :=
  match running s !! uri with
  | Some cancel =>
      {| running := running s; contexts := contexts s;
         cancelled := {[cancel]} ∪ cancelled s; started := started s |}
  | None => s
  end.

(** [ctx, cancel := context.WithCancel(context.Background())] *)
Definition withCancel (uri : DocumentURI) (s : Scheduler) : CancelFunc * Scheduler :=
  (length (contexts s),
   {| running := running s; contexts := contexts s ++ [uri];
      cancelled := cancelled s; started := started s |}).

(** [running[uri] = cancel] *)
Definition install (uri : DocumentURI) (cancel : CancelFunc) (s : Scheduler)
  : Scheduler :=
  {| running := <[uri := cancel]> (running s); contexts := contexts s;
     cancelled := cancelled s; started := started s |}.

(** [go func() { ... h.diagnose(ctx, uri) ... }()] *)
Definition spawn (uri : DocumentURI) (ctx : CancelFunc) (s : Scheduler) : Scheduler :=
  {| running := running s; contexts := contexts s;
     cancelled := cancelled s; started := started s ++ [(ctx, uri)] |}.

(** One round of the loop for a received [uri]: the states after each
    of its four statements, in order. *)
Definition round (uri : DocumentURI) (s : Scheduler) : list Scheduler :=
  let s1 := cancelPrevious uri s in
  let '(cancel, s2) := withCancel uri s1 in
  let s3 := install uri cancel s2 in
  let s4 := spawn uri cancel s3 in
  [s1; s2; s3; s4].

(** The state at the head of the loop after a round. *)
Definition afterRound (s : Scheduler) (uri : DocumentURI) : Scheduler :=
  List.last (round uri s) s.

(** The loop of [diagnostic] over the URIs received until the channel
    is closed: the state at the head of the loop once they are all
    handled, and every state the loop goes through. *)
Definition diagnostic (requests : list DocumentURI) : Scheduler :=
  fold_left afterRound requests initial.

Fixpoint trace (requests : list DocumentURI) (s : Scheduler) : list Scheduler :=
  match requests with
  | [] => []
  | uri :: rest => round uri s ++ trace rest (afterRound s uri)
  end.

(** A context is outstanding for a URI when it was made for it and its
    cancel function has not been called. *)
Definition outstanding (s : Scheduler) (uri : DocumentURI) (c : CancelFunc) : Prop :=
  contexts s !! c = Some uri ∧ c ∉ cancelled s.

Definition atMostOneOutstanding (s : Scheduler) : Prop :=
  ∀ uri c1 c2, outstanding s uri c1 → outstanding s uri c2 → c1 = c2.

(** *** initialize.go *)

(** A connection is named by a number. *)
Definition Conn : Type := nat.

(** [lsp.InitializeParams], of which the code reads [RootPath]. *)
Record InitializeParams : Type := { RootPath : string }.

Inductive TextDocumentSyncKind : Type :=
| TDSKNone
| TDSKFull
| TDSKIncremental.

(** [lsp.InitializeResult]: the kind under
    [Capabilities.TextDocumentSync.Kind], a pointer made by [toPtr]. *)
Record InitializeResult : Type :=
  { TextDocumentSyncKindOf : option TextDocumentSyncKind }.

Definition toPtr {T : Type} (s : T) : option T := Some s.

(** The fields of [handler] that [handleInitialize] assigns. *)
Record handler : Type :=
  { conn : option Conn;
    initializeParams : InitializeParams;
    project : option Source.Project }.

(** A request: [Params] is a pointer to the raw JSON. *)
Record Request : Type := { Params : option string }.

(** What the handler returns: a result, the [jsonrpc2.Error] with a
    code, or another error. *)
Inductive Reply : Type :=
| Result (result : InitializeResult)
| RpcError (code : Z)
| Failure (err : Errors.error).

Definition CodeInvalidParams : Z := -32602.

(** [handleInitialize], with the decoder [json.Unmarshal] and the cache
    constructor as collaborators; the handler is passed and returned. *)
Definition handleInitialize
    (Unmarshal : string -> Errors.result InitializeParams)
    (methods : Source.Project)
    (NewGlobalCache : string -> Errors.result (gmap string Source.File))
    (h : handler) (connection : Conn) (req : Request) : handler * Reply :=
  match Params req with
  | None => (h, RpcError CodeInvalidParams)
  | Some raw =>
      let h := {| conn := Some connection;
                  initializeParams := initializeParams h;
                  project := project h |} in
      match Unmarshal raw with
      | Errors.Err err => (h, Failure err)
      | Errors.Ok params =>
          let h := {| conn := conn h; initializeParams := params;
                      project := project h |} in
          match Source.NewProject methods NewGlobalCache (RootPath params) with
          | Errors.Err err => (h, Failure err)
          | Errors.Ok p =>
              ({| conn := conn h; initializeParams := initializeParams h;
                  project := Some p |},
               Result {| TextDocumentSyncKindOf := toPtr TDSKFull |})
          end
      end
  end.

End Langserver.

(** * Notions used to state the properties *)

Section PositionNotions.
Import Strings Bufio.

(** The bytes of the lines, one separator counted after each. *)
Definition linesLen (ls : list string) : Z :=
  fold_right (fun l acc => len l + 1 + acc) 0 ls.

(** A line the scanner hands out unchanged: it does not end in a
    carriage return and it fits the buffer. *)
Definition plainLine (l : string) : Prop :=
  dropCR l = l /\ len l < MaxScanTokenSize.

End PositionNotions.

Section HoverNotions.
Import Strings Lsp Types Errors Source.

(** The proper ancestors of a node, nearest first. *)
Fixpoint ancestors (n : Ast.Located) : list Ast.Located :=
  match n with
  | Ast.At _ (Some parent) => parent :: ancestors parent
  | Ast.At _ None => []
  end.

(** The parsed file and the offset [TermDocument] works with. *)
Definition parsedFileOf (p : Project) (uri : string) (sql : File) : ParsedFile :=
  ParseFile p uri (RawText sql).

Definition termOffsetOf (p : Project) (uri : string) (sql : File)
    (position : Position) : Z :=
  fixTermOffsetForNode (parsedFileOf p uri sql)
    (positionToByteOffset (RawText sql) position).

(** The document is cached and [targetNode] is the path expression
    located at the position. *)
Definition locates (p : Project) (uri : string) (position : Position)
    (sql : File) (targetNode : Ast.Located) : Prop :=
  cache p !! uri = Some sql
  /\ searchAstNode Ast.PathExpressionKind (Node (parsedFileOf p uri sql))
       (termOffsetOf p uri sql position) = Some targetNode.

(** The table strategy returns nothing: there is no table path expression
    above the located node, or it yields no blocks. *)
Definition tableStrategySilent (p : Project) (targetNode : Ast.Located) : Prop :=
  lookupNode Ast.TablePathExpressionKind targetNode = None
  \/ exists tableNode,
       lookupNode Ast.TablePathExpressionKind targetNode = Some tableNode
       /\ createTableMarkedString p tableNode = Returns [].

(** The hover gets as far as the statement [output] that contains the
    offset. *)
Definition reachesStatement (p : Project) (uri : string) (position : Position)
    (sql : File) (targetNode : Ast.Located) (output : AnalyzerOutput) : Prop :=
  locates p uri position sql targetNode
  /\ tableStrategySilent p targetNode
  /\ FindTargetAnalyzeOutput (parsedFileOf p uri sql)
       (termOffsetOf p uri sql position) = Some output.

(** The hover gets as far as the column-reference strategy: neither a
    function call nor a struct field access covers the offset. *)
Definition reachesColumnRef (p : Project) (uri : string) (position : Position)
    (sql : File) (targetNode : Ast.Located) (output : AnalyzerOutput) : Prop :=
  reachesStatement p uri position sql targetNode output
  /\ searchResolvedAstNode Rast.isFunctionCallNode output
       (termOffsetOf p uri sql position) = None
  /\ searchResolvedAstNode Rast.isGetStructFieldNode output
       (termOffsetOf p uri sql position) = None.

(** The hover gets as far as the select-column strategy: the
    column-reference strategy returned nothing either. *)
Definition reachesSelectColumn (p : Project) (uri : string) (position : Position)
    (sql : File) (targetNode : Ast.Located) (output : AnalyzerOutput) : Prop :=
  reachesColumnRef p uri position sql targetNode output
  /\ columnRefStrategy p output (termOffsetOf p uri sql position) = None.

(** The candidate name as the specification words it: the explicit alias
    of the select item if present, otherwise the dotted path of its
    expression. *)
Definition candidateNameBySpec (item : Ast.Node) : option string :=
  match item with
  | Ast.SelectColumnNode _ _ (Some alias) => Some alias
  | Ast.SelectColumnNode _ (Ast.PathExpressionNode path) None =>
      Some (Join (Ast.Names path) dot)
  | _ => None
  end.

(** The candidate name once the loop over [refNames] has removed the
    prefixes collected from [scan]. *)
Definition strippedName (scan : Rast.Node) (columnName : string) : string :=
  fold_left removeTablePrefix (collectRefNames scan) columnName.

(** A scan node the selection loop can assign: it has a range, and the
    width of the range is below [math.MaxInt]. *)
Definition assignable (node : Rast.Node) : bool :=
  match Rast.ParseLocationRange node with
  | None => false
  | Some lrange =>
      GoInt.wrap (EndByteOffset lrange - StartByteOffset lrange) <? GoInt.MaxInt
  end.

(** The width of the range of a node. *)
Definition widthOf (node : Rast.Node) : option Z :=
  match Rast.ParseLocationRange node with
  | None => None
  | Some lrange => Some (EndByteOffset lrange - StartByteOffset lrange)
  end.

(** The scan the specification describes: among the scan nodes whose
    range contains the offset, one of the smallest width (the first such
    in traversal order). *)
Definition narrowestContaining (scanNodes : list Rast.Node) (termOffset : Z)
  : option Rast.Node :=
  fold_left
    (fun best node =>
       if covers (Rast.ParseLocationRange node) termOffset
       then match best with
            | None => Some node
            | Some b =>
                match widthOf node, widthOf b with
                | Some w, Some wb => if w <? wb then Some node else best
                | _, _ => best
                end
            end
       else best)
    scanNodes None.

End HoverNotions.

Section SchedulerNotions.
Import Lsp Langserver.

(** The scheduler between two rounds: the outstanding contexts are the
    ones [running] holds, and only contexts made so far have been
    cancelled. *)
Definition settled (s : Scheduler) : Prop :=
  (forall uri c, outstanding s uri c <-> running s !! uri = Some c)
  /\ (forall c, c ∈ cancelled s -> (c < length (contexts s))%nat).

End SchedulerNotions.

Section MorePositionNotions.
Import Strings Bufio.

(** The offset at which line [k] starts: the bytes of the lines before
    it with their separators; a line past the end of the text starts one
    byte after the line before it. *)
Definition lineStart (T : string) (k : nat) : Z :=
  linesLen (take k (Split T LF)) + Z.of_nat (k - length (Split T LF)).

End MorePositionNotions.

Section ScannerNotions.
Import Strings Bufio.

(** The line ends in a carriage return. *)
Fixpoint endsWithCR (l : string) : bool :=
  match l with
  | EmptyString => false
  | String c EmptyString => Ascii.eqb c CR
  | String _ rest => endsWithCR rest
  end.

(** The number of lines that end in a carriage return. *)
Definition countCR (ls : list string) : Z :=
  fold_right (fun l acc => (if endsWithCR l then 1 else 0) + acc) 0 ls.

End ScannerNotions.

Section MoreLocatorNotions.
Import Types Source.

(** A candidate of a search: a node of the wanted kind whose range covers
    the offset. *)
Definition astCandidate (T : Ast.Kind) (termOffset : Z) (n : Ast.Located) : bool :=
  Ast.isKind T (Ast.self n) && covers (Ast.ParseLocationRange (Ast.self n)) termOffset.

Definition resolvedCandidate (T : Rast.Node -> bool) (termOffset : Z)
    (n : Rast.Node) : bool :=
  T n && covers (Rast.ParseLocationRange n) termOffset.

End MoreLocatorNotions.

Section MoreHoverNotions.
Import Lsp Source.

(** The shapes of a hover: nothing, one markdown block, or a markdown
    block followed by a yaml block. *)
Definition hoverShape (blocks : list MarkedString) : Prop :=
  blocks = []
  \/ (exists b, blocks = [b] /\ Language b = markdown)
  \/ (exists b1 b2, blocks = [b1; b2] /\ Language b1 = markdown /\ Language b2 = yaml).

End MoreHoverNotions.

Section MoreSchedulerNotions.
Import Lsp Langserver.

(** Request number [c] is superseded: a later request names the same
    URI. *)
Definition superseded (requests : list DocumentURI) (c : nat) : Prop :=
  exists uri j, requests !! c = Some uri /\ (c < j)%nat /\ requests !! j = Some uri.

(** Request number [c] is the latest request for [uri]. *)
Definition latestFor (requests : list DocumentURI) (uri : DocumentURI) (c : nat) : Prop :=
  requests !! c = Some uri /\ forall j, (c < j)%nat -> requests !! j <> Some uri.

End MoreSchedulerNotions.

(** * Sample requests

    Surface and resolved trees as the parser and the analyzer give them
    for three small queries, and projects that serve them. *)

Module Samples.
Import Strings Lsp Types Errors Source.

Definition range (a b : Z) : option ParseLocationRange :=
  Some {| StartByteOffset := a; EndByteOffset := b |}.

Definition noEncoder {A B : Type} (_ : A) : result B := Err (External "no encoder").

(** A project with one cached document, a fixed parse of it and a given
    metadata store. *)
Definition serve (uri text : string) (parsed : ParsedFile)
    (store : string -> result Bigquery.TableMetadata) : Project :=
  {| rootPath := "/";
     cache := {[ uri := {| RawText := text; Version := 1 |} ]};
     ParseFile := fun _ _ => parsed;
     getTableMetadataFromPath := store;
     ToJSONFields := noEncoder;
     jsonUnmarshal := noEncoder;
     yamlMarshal := noEncoder |}.

Definition parsedAs (surface : Ast.Node) (statement : Rast.Node) : ParsedFile :=
  {| Node := surface;
     fixTermOffsetForNode := fun termOffset => termOffset;
     FindTargetAnalyzeOutput := fun _ => Some {| Statement := statement |} |}.

Definition uri : string := "file:///query.sql".

Definition unknownTable (_ : string) : result Bigquery.TableMetadata :=
  Err (External "table not found").

Definition epoch : Bigquery.Time := {| Bigquery.Format := fun _ => "1970-01-01 00:00:00" |}.

(** A store that knows every table, with the single field [k]. *)
Definition tableWithK (path : string) : result Bigquery.TableMetadata :=
  Ok {| Bigquery.FullID := path; Bigquery.TableDescription := EmptyString;
        Bigquery.CreationTime := epoch; Bigquery.LastModifiedTime := epoch;
        Bigquery.Schema :=
          [ {| Bigquery.Name := "k"; Bigquery.Type_ := "INT64";
               Bigquery.Description := "key" |} ] |}.

Definition columnX : Rast.Column :=
  {| Rast.Name := "x"; Rast.TableName := "t"; Rast.TypeName := "INT64" |}.

(** [SELECT a.x FROM t AS a]: the select item spans bytes 7 to 10, the
    table name bytes 16 to 17.  A bare column of the select list has no
    column reference node in the resolved tree: the project scan passes
    the column of the table scan on. *)
Module SelectAlias.

Definition text : string := "SELECT a.x FROM t AS a".

Definition selectItem : Ast.Node :=
  Ast.SelectColumnNode (range 7 10)
    (Ast.PathExpressionNode {| Ast.path_range := range 7 10; Ast.Names := ["a"; "x"] |})
    None.

Definition tableRef : Ast.Node :=
  Ast.TablePathExpressionNode (range 16 22)
    (Some {| Ast.path_range := range 16 17; Ast.Names := ["t"] |})
    [Ast.OtherNode (range 18 22) []].

Definition surface : Ast.Node :=
  Ast.OtherNode (range 0 22)
    [Ast.OtherNode (range 0 22)
       [Ast.OtherNode (range 0 22)
          [Ast.OtherNode (range 7 10) [selectItem];
           Ast.OtherNode (range 11 22) [tableRef]]]].

Definition tableScan : Rast.Node := Rast.TableScanNode (range 16 17) [columnX] "a".

Definition projectScan : Rast.Node :=
  Rast.ProjectScanNode None [columnX] [] (Some tableScan).

Definition statement : Rast.Node :=
  Rast.OtherNode None [Rast.OtherNode None []; projectScan].

Definition project (store : string -> result Bigquery.TableMetadata) : Project :=
  serve uri text (parsedAs surface statement) store.

(** The cursor over [x], and over [t]. *)
Definition overX : Position := {| Line := 0; Character := 9 |}.
Definition overT : Position := {| Line := 0; Character := 16 |}.

End SelectAlias.

(** [SELECT x FROM t ORDER BY x]: the ordering key at bytes 25 to 26 is
    a column reference of the resolved tree. *)
Module OrderBy.

Definition text : string := "SELECT x FROM t ORDER BY x".

Definition surface : Ast.Node :=
  Ast.OtherNode (range 0 26)
    [Ast.OtherNode (range 0 26)
       [Ast.OtherNode (range 0 15)
          [Ast.OtherNode (range 7 8)
             [Ast.SelectColumnNode (range 7 8)
                (Ast.PathExpressionNode
                   {| Ast.path_range := range 7 8; Ast.Names := ["x"] |}) None];
           Ast.OtherNode (range 9 15)
             [Ast.TablePathExpressionNode (range 14 15)
                (Some {| Ast.path_range := range 14 15; Ast.Names := ["t"] |}) []]];
        Ast.OtherNode (range 16 26)
          [Ast.OtherNode (range 25 26)
             [Ast.PathExpressionNode
                {| Ast.path_range := range 25 26; Ast.Names := ["x"] |}]]]].

Definition orderingKey : Rast.Node := Rast.ColumnRefNode (range 25 26) (Some columnX).

Definition statement : Rast.Node :=
  Rast.OtherNode None
    [Rast.OtherNode None [];
     Rast.OrderByScanNode None [columnX]
       (Some (Rast.TableScanNode (range 14 15) [columnX] EmptyString))
       [Rast.OtherNode None [orderingKey]]].

Definition project (store : string -> result Bigquery.TableMetadata) : Project :=
  serve uri text (parsedAs surface statement) store.


End OrderBy.

(** [SELECT a.x FROM t AS a, u AS b]: two table scans under a join; the
    query as a whole is the range of the project scan. *)
Module TwoTables.

Definition text : string := "SELECT a.x FROM t AS a, u AS b".

Definition columnY : Rast.Column :=
  {| Rast.Name := "y"; Rast.TableName := "u"; Rast.TypeName := "STRING" |}.

Definition surface : Ast.Node :=
  Ast.OtherNode (range 0 30)
    [Ast.OtherNode (range 0 30)
       [Ast.OtherNode (range 0 30)
          [Ast.OtherNode (range 7 10) [SelectAlias.selectItem];
           Ast.OtherNode (range 11 30)
             [Ast.OtherNode (range 16 30)
                [SelectAlias.tableRef;
                 Ast.TablePathExpressionNode (range 24 30)
                   (Some {| Ast.path_range := range 24 25; Ast.Names := ["u"] |})
                   [Ast.OtherNode (range 26 30) []]]]]]].

Definition scanT : Rast.Node := Rast.TableScanNode (range 16 17) [columnX] "a".
Definition scanU : Rast.Node := Rast.TableScanNode (range 24 25) [columnY] "b".

Definition projectScan : Rast.Node :=
  Rast.ProjectScanNode (range 0 30) [columnX] []
    (Some (Rast.OtherScanNode None [columnX; columnY] [scanT; scanU])).

Definition statement : Rast.Node :=
  Rast.OtherNode None [Rast.OtherNode None []; projectScan].

Definition output : AnalyzerOutput := {| Statement := statement |}.

Definition project (store : string -> result Bigquery.TableMetadata) : Project :=
  serve uri text (parsedAs surface statement) store.

Definition overX : Position := {| Line := 0; Character := 9 |}.

End TwoTables.

(** [SELECT UPPER(x) FROM t]: the call spans bytes 7 to 15, its
    argument bytes 13 to 14; the select item is not a path. *)
Module Upper.

Definition text : string := "SELECT UPPER(x) FROM t".

Definition surface : Ast.Node :=
  Ast.OtherNode (range 0 22)
    [Ast.OtherNode (range 0 22)
       [Ast.OtherNode (range 0 22)
          [Ast.OtherNode (range 7 15)
             [Ast.SelectColumnNode (range 7 15)
                (Ast.OtherNode (range 7 15)
                   [Ast.PathExpressionNode
                      {| Ast.path_range := range 7 12; Ast.Names := ["UPPER"] |};
                    Ast.PathExpressionNode
                      {| Ast.path_range := range 13 14; Ast.Names := ["x"] |}])
                None];
           Ast.OtherNode (range 16 22)
             [Ast.TablePathExpressionNode (range 21 22)
                (Some {| Ast.path_range := range 21 22; Ast.Names := ["t"] |}) []]]]].

Definition upper : Rast.Function :=
  {| Rast.SQLName := "UPPER";
     Rast.Signatures :=
       [ {| Rast.DebugString := fun name _ => name +:+ "(STRING) -> STRING" |};
         {| Rast.DebugString := fun name _ => name +:+ "(BYTES) -> BYTES" |} ] |}.

Definition call : Rast.Node :=
  Rast.FunctionCallNode (range 7 15) upper
    [Rast.ColumnRefNode (range 13 14) (Some columnX)].

Definition statement : Rast.Node :=
  Rast.OtherNode None
    [Rast.OtherNode None [];
     Rast.ProjectScanNode None [columnX]
       [Rast.OtherNode None [call]]
       (Some (Rast.TableScanNode (range 21 22) [columnX] EmptyString))].

Definition project (store : string -> result Bigquery.TableMetadata) : Project :=
  serve uri text (parsedAs surface statement) store.


End Upper.

(** The project of [SELECT a.x FROM t AS a] with encoders that answer. *)
Definition encoded : Project :=
  {| rootPath := "/";
     cache := {[ uri := {| RawText := SelectAlias.text; Version := 1 |} ]};
     ParseFile := fun _ _ => parsedAs SelectAlias.surface SelectAlias.statement;
     getTableMetadataFromPath := tableWithK;
     ToJSONFields := fun _ => Ok "[{name: k}]";
     jsonUnmarshal :=
       fun _ => Ok [MkSchema "k" "INT64" EmptyString "key" []];
     yamlMarshal := fun _ => Ok "- name: k" |}.

End Samples.

(** * Properties *)

(** Closed facts about the sample requests are settled by evaluation. *)
Ltac evaluate := vm_compute; reflexivity.

(** The conditions under which a sample hover comes to the statement:
    equations settled by evaluation, and a table strategy that is silent
    because no table path expression lies above the located node. *)
Ltac reaches := repeat split; try evaluate; left; evaluate.

(** ** Arithmetic on [int] and the byte view of strings *)


Section IntAndStringFacts.
Import GoInt Strings Bufio.

Lemma wrap_id (z : Z) : MinInt <= z <= MaxInt -> wrap z = z.
Proof.
  unfold wrap, MinInt, MaxInt. intros H.
  rewrite Z.mod_small; lia.
Qed.

Lemma append_empty (t : string) : EmptyString +:+ t = t.
Proof. reflexivity. Qed.

Lemma append_String (c : ascii) (s t : string) :
  String c s +:+ t = String c (s +:+ t).
Proof. reflexivity. Qed.

Lemma len_nonneg (s : string) : 0 <= len s.
Proof. unfold len. lia. Qed.

Lemma len_String (c : ascii) (s : string) : len (String c s) = len s + 1.
Proof. unfold len. cbn [String.length]. lia. Qed.

Lemma len_append (s t : string) : len (s +:+ t) = len s + len t.
Proof.
  induction s as [|c s IH].
  - rewrite append_empty. unfold len. cbn [String.length]. lia.
  - rewrite append_String, !len_String, IH. lia.
Qed.

Lemma Split_nonempty (s : string) (sep : ascii) : Split s sep <> [].
Proof.
  destruct s as [|c s]; cbn; [discriminate|].
  destruct (Ascii.eqb c sep); [discriminate|].
  destruct (Split s sep); discriminate.
Qed.

(** Splitting around a separator splits the pieces. *)
Lemma Split_app (pre post : string) (sep : ascii) :
  Split (pre +:+ String sep post) sep = Split pre sep ++ Split post sep.
Proof.
  induction pre as [|c pre IH].
  - rewrite append_empty. cbn [Split]. rewrite Ascii.eqb_refl. reflexivity.
  - rewrite append_String. cbn [Split]. destruct (Ascii.eqb c sep).
    + rewrite IH. reflexivity.
    + rewrite IH. pose proof (Split_nonempty pre sep) as Hne.
      destruct (Split pre sep) as [|l ls]; [congruence|]. reflexivity.
Qed.

Lemma linesLen_cons (l : string) (ls : list string) :
  linesLen (l :: ls) = len l + 1 + linesLen ls.
Proof. reflexivity. Qed.

Lemma linesLen_nonneg (ls : list string) : 0 <= linesLen ls.
Proof.
  induction ls as [|l ls IH]; [unfold linesLen; simpl; lia|].
  rewrite linesLen_cons. pose proof (len_nonneg l). lia.
Qed.

Lemma linesLen_app (xs ys : list string) :
  linesLen (xs ++ ys) = linesLen xs + linesLen ys.
Proof.
  induction xs as [|x xs IH]; [unfold linesLen; simpl; lia|].
  rewrite <- app_comm_cons, !linesLen_cons, IH. lia.
Qed.

Lemma linesLen_Split (s : string) (sep : ascii) :
  linesLen (Split s sep) = len s + 1.
Proof.
  induction s as [|c s IH]; cbn [Split].
  - reflexivity.
  - rewrite len_String. destruct (Ascii.eqb c sep).
    + rewrite linesLen_cons, IH. unfold len. cbn [String.length]. lia.
    + pose proof (Split_nonempty s sep) as Hne.
      destruct (Split s sep) as [|l ls]; [congruence|].
      rewrite linesLen_cons in *. rewrite len_String. lia.
Qed.

(** The bytes up to the end of line [k] are bytes of the text. *)
Lemma linesLen_take_lookup (ls : list string) (k : nat) (l : string) :
  ls !! k = Some l -> linesLen (take k ls) + len l + 1 <= linesLen ls.
Proof.
  intros Hk.
  rewrite <- (take_drop_middle ls k l Hk) at 2.
  rewrite linesLen_app, linesLen_cons.
  pose proof (linesLen_nonneg (drop (S k) ls)). lia.
Qed.

(** What the scanner sees of a text that has a line after its first. *)
Lemma cutLine_Split (data : string) (l0 l1 : string) (rest : list string) :
  Split data LF = l0 :: l1 :: rest ->
  exists data', cutLine data = (l0, data') /\ Split data' LF = l1 :: rest
                /\ data <> EmptyString.
Proof.
  revert l0. induction data as [|c data IH]; intros l0 H; cbn [Split] in H.
  - discriminate.
  - cbn [cutLine]. destruct (Ascii.eqb c LF).
    + injection H as <- H. exists data. split; [reflexivity|]. split; [exact H|discriminate].
    + destruct (Split data LF) as [|m ms] eqn:E; [discriminate|].
      injection H as <- ->.
      destruct (IH m eq_refl) as (data' & Hc & Hs & _).
      exists data'. rewrite Hc. split; [reflexivity|]. split; [exact Hs|discriminate].
Qed.

End IntAndStringFacts.

(** ** The position mapper *)

Section PositionMapperFacts.
Import GoInt Strings Bufio Lsp PositionMapper.

Lemma length_le_linesLen (ls : list string) : Z.of_nat (length ls) <= linesLen ls.
Proof.
  induction ls as [|l ls IH]; [unfold linesLen; simpl; lia|].
  rewrite linesLen_cons. pose proof (len_nonneg l). cbn [length]. lia.
Qed.

(** The offset of character [c] of line [k] is mapped back to line [k],
    character [c]; [c] may be the length of the line. *)
Lemma byteOffsetLoop_at (ls : list string) :
  forall (k : nat) (l : string) (line0 c : Z),
    ls !! k = Some l ->
    0 <= c <= len l ->
    MinInt <= line0 -> line0 + Z.of_nat k <= MaxInt ->
    linesLen (take k ls) + c <= MaxInt ->
    byteOffsetLoop ls line0 (linesLen (take k ls) + c)
    = ({| Line := line0 + Z.of_nat k; Character := c |}, true).
Proof.
  induction ls as [|l0 ls IH]; intros k l line0 c Hk Hc Hlo Hhi Hoff.
  - destruct k; discriminate.
  - destruct k as [|k].
    + injection Hk as ->. cbn [take byteOffsetLoop].
      replace (linesLen [] + c) with c by (unfold linesLen; simpl; lia).
      destruct (Z.ltb_spec c (len l + 1)); [|lia].
      do 2 f_equal; lia.
    + cbn [take] in *. rewrite linesLen_cons in *. cbn [byteOffsetLoop].
      pose proof (len_nonneg l0) as H0.
      pose proof (linesLen_nonneg (take k ls)) as H1.
      destruct (Z.ltb_spec (len l0 + 1 + linesLen (take k ls) + c) (len l0 + 1)); [lia|].
      rewrite (wrap_id (line0 + 1)) by (unfold MinInt, MaxInt in *; lia).
      rewrite wrap_id by (unfold MinInt, MaxInt in *; lia).
      replace (len l0 + 1 + linesLen (take k ls) + c - (len l0 + 1))
        with (linesLen (take k ls) + c) by lia.
      rewrite (IH k l (line0 + 1) c Hk Hc) by (unfold MinInt in *; lia).
      do 2 f_equal; lia.
Qed.

(** On plain lines the scanner adds up what [strings.Split] counts. *)
Lemma scanLoop_lines :
  forall (k : nat) (data : string) (acc : Z),
    (k < length (Split data LF))%nat ->
    Forall plainLine (take k (Split data LF)) ->
    0 <= acc ->
    acc + linesLen (take k (Split data LF)) <= MaxInt ->
    scanLoop k (NewScanner data) acc = acc + linesLen (take k (Split data LF)).
Proof.
  induction k as [|k IH]; intros data acc Hlen Hplain Hacc Hmax.
  - cbn [take scanLoop]. unfold linesLen; simpl; lia.
  - destruct (Split data LF) as [|l0 [|l1 rest]] eqn:E;
      [cbn in Hlen; lia | cbn in Hlen; lia |].
    destruct (cutLine_Split data l0 l1 rest E) as (data' & Hcut & Hsplit & Hne).
    cbn [take] in *. rewrite linesLen_cons in *.
    apply Forall_cons in Hplain as [[Hcr Hfit] Hplain].
    unfold NewScanner. cbn [scanLoop]. unfold Scan.
    destruct data as [|c data]; [congruence|].
    rewrite Hcut.
    destruct (Z.ltb_spec (len l0) MaxScanTokenSize); [|lia].
    rewrite Hcr.
    pose proof (len_nonneg l0) as H0.
    pose proof (linesLen_nonneg (take k (l1 :: rest))) as H1.
    rewrite wrap_id by (unfold MinInt, MaxInt in *; lia).
    fold (NewScanner data'). rewrite <- Hsplit in *.
    rewrite IH; [lia| | assumption | lia | lia].
    rewrite Hsplit in *. cbn [length] in *. lia.
Qed.

(** X1.  Where the scanner hands out the lines unchanged, mapping a
    position inside the text to its offset and back gives the position,
    the end of a line included. *)
Lemma round_trip_on_plain_lines (T : string) (P : Position) (l : string) :
  0 <= Line P ->
  Split T LF !! Z.to_nat (Line P) = Some l ->
  0 <= Character P <= len l ->
  Forall plainLine (take (Z.to_nat (Line P)) (Split T LF)) ->
  len T <= MaxInt ->
  byteOffsetToPosition T (positionToByteOffset T P) = (P, true).
Proof.
  intros HL Hk Hc Hplain Hmax.
  set (k := Z.to_nat (Line P)) in *.
  pose proof (linesLen_take_lookup _ _ _ Hk) as Hle.
  rewrite linesLen_Split in Hle.
  pose proof (linesLen_nonneg (take k (Split T LF))) as Hnn.
  assert (Hkl : (k < length (Split T LF))%nat) by (eapply lookup_lt_Some; eauto).
  pose proof (length_le_linesLen (Split T LF)) as Hcount.
  rewrite linesLen_Split in Hcount.
  unfold byteOffsetToPosition, positionToByteOffset. fold k.
  rewrite scanLoop_lines by (try assumption; lia).
  rewrite Z.add_0_l.
  rewrite wrap_id by (unfold MinInt, MaxInt in *; lia).
  rewrite (byteOffsetLoop_at _ k l 0 (Character P) Hk Hc)
    by (unfold MinInt, MaxInt in *; lia).
  destruct P as [ln ch]. cbn [Line Character] in *.
  subst k. do 2 f_equal; lia.
Qed.

End PositionMapperFacts.

Section PositionMapperClaims.
Import GoInt Strings Bufio Lsp PositionMapper.

(** C3.  The round trip [byteOffsetToPosition(T, positionToByteOffset(T, P))]
    does not give [P] back on a text with a CRLF line ending: in the
    text "a\r\nbcd" the position line 1, character 1 lies strictly
    inside the line "bcd", yet it is mapped to offset 3 (the scanner
    drops the carriage return and only the newline is counted) and
    offset 3 is mapped back to line 1, character 0. *)
Theorem round_trip_breaks_after_crlf :
  let T := "a" +:+ String CR (String LF "bcd") in
  let P := {| Line := 1; Character := 1 |} in
  Split T LF !! 1%nat = Some "bcd"
  /\ 0 < Character P < len "bcd"
  /\ positionToByteOffset T P = 3
  /\ byteOffsetToPosition T (positionToByteOffset T P)
     = ({| Line := 1; Character := 0 |}, true)
  /\ byteOffsetToPosition T (positionToByteOffset T P) <> (P, true).
Proof.
  cbv zeta. repeat split; try (vm_compute; congruence); vm_compute; reflexivity.
Qed.

(** C6, as stated, fails: in the text "a\nb" offset 1 is the position
    of the newline, and [byteOffsetToPosition] resolves it to line 0,
    character 1 (the end of the first line), not to line 1,
    character 0. *)
Lemma newline_offset_is_not_next_line_start :
  let T := "a" +:+ String LF "b" in
  String.get 1 T = Some LF
  /\ byteOffsetToPosition T 1 = ({| Line := 0; Character := 1 |}, true)
  /\ byteOffsetToPosition T 1 <> ({| Line := 1; Character := 0 |}, true).
Proof.
  cbv zeta. repeat split; try (vm_compute; congruence); vm_compute; reflexivity.
Qed.

(** C6, amended.  For every text, the offset of a newline separator is
    resolved to the trailing position of the line the separator ends
    (same line, character equal to the length of the line); character 0
    of the next line is the offset one past the separator. *)
Theorem newline_offset_is_line_end (pre post : string) :
  len (pre +:+ String LF post) <= MaxInt ->
  byteOffsetToPosition (pre +:+ String LF post) (len pre)
  = ({| Line := Z.of_nat (length (Split pre LF)) - 1;
        Character := len (List.last (Split pre LF) EmptyString) |}, true)
  /\ byteOffsetToPosition (pre +:+ String LF post) (len pre + 1)
     = ({| Line := Z.of_nat (length (Split pre LF)); Character := 0 |}, true).
Proof.
  intros Hmax. rewrite len_append, len_String in Hmax.
  pose proof (len_nonneg post) as Hpost.
  unfold byteOffsetToPosition. rewrite Split_app.
  pose proof (linesLen_Split pre LF) as Hsum.
  pose proof (length_le_linesLen (Split pre LF)) as Hcount.
  destruct (exists_last (Split_nonempty pre LF)) as (init & l & E).
  rewrite E in *. rewrite last_last.
  rewrite linesLen_app, linesLen_cons in Hsum, Hcount.
  replace (linesLen []) with 0 in Hsum, Hcount by reflexivity.
  rewrite length_app in *. cbn [length] in *.
  pose proof (linesLen_nonneg init) as Hinit.
  pose proof (len_nonneg l) as Hl.
  split.
  - replace (len pre)
      with (linesLen (take (length init) ((init ++ [l]) ++ Split post LF)) + len l).
    + rewrite (byteOffsetLoop_at _ (length init) l 0 (len l)).
      * do 2 f_equal; lia.
      * rewrite <- app_assoc. apply list_lookup_middle. reflexivity.
      * lia.
      * unfold MinInt; lia.
      * lia.
      * rewrite <- app_assoc, take_app_length. lia.
    + rewrite <- app_assoc, take_app_length. lia.
  - pose proof (Split_nonempty post LF) as Hne.
    destruct (Split post LF) as [|m ms] eqn:Em; [congruence|].
    replace (len pre + 1)
      with (linesLen (take (length (init ++ [l])) ((init ++ [l]) ++ m :: ms)) + 0).
    + rewrite (byteOffsetLoop_at _ (length (init ++ [l])) m 0 0).
      * rewrite length_app. cbn [length]. do 2 f_equal; lia.
      * apply list_lookup_middle. reflexivity.
      * pose proof (len_nonneg m). lia.
      * unfold MinInt; lia.
      * rewrite length_app. cbn [length]. lia.
      * rewrite take_app_length, linesLen_app, linesLen_cons.
        replace (linesLen []) with 0 by reflexivity. lia.
    + rewrite take_app_length, linesLen_app, linesLen_cons.
      replace (linesLen []) with 0 by reflexivity. lia.
Qed.

Lemma newline_offset_is_line_end_witness :
  len ("ab" +:+ String LF "c") <= MaxInt
  /\ byteOffsetToPosition ("ab" +:+ String LF "c") (len "ab")
  = ({| Line := Z.of_nat (length (Split "ab" LF)) - 1;
        Character := len (List.last (Split "ab" LF) EmptyString) |}, true)
  /\ byteOffsetToPosition ("ab" +:+ String LF "c") (len "ab" + 1)
     = ({| Line := Z.of_nat (length (Split "ab" LF)); Character := 0 |}, true).
Proof.
  split; [vm_compute; discriminate|].
  apply (newline_offset_is_line_end "ab" "c"). vm_compute. discriminate.
Defined.

End PositionMapperClaims.

(** ** The node locator *)

Section NodeLocatorClaims.
Import Types Source Samples.

(** C4, as stated, fails: [lookupNode] does not walk strictly upward.
    Started at a select item that has no parent at all, it returns that
    very node for the kind of select items, where the claim has it
    report not-found. *)
Lemma lookupNode_returns_start :
  let n := Ast.At SelectAlias.selectItem None in
  ancestors n = []
  /\ lookupNode Ast.SelectColumnKind n = Some n
  /\ lookupNode Ast.SelectColumnKind n <> None.
Proof. cbv zeta. repeat split. discriminate. Qed.

(** C4, amended.  [lookupNode[T]] returns the first node of the wanted
    kind in the chain made of the starting node followed by its
    ancestors, nearest first: the starting node itself when its kind
    matches, otherwise its nearest matching ancestor, and not-found when
    the chain up to the root has no match. *)
Theorem lookupNode_first_in_chain (T : Ast.Kind) (n : Ast.Located) :
  lookupNode T n
  = List.find (fun a => Ast.isKind T (Ast.self a)) (n :: ancestors n).
Proof.
  revert n. fix IH 1. intros [s parent].
  cbn [lookupNode ancestors List.find Ast.self].
  destruct (Ast.isKind T s); [reflexivity|].
  destruct parent as [q|]; [apply IH | reflexivity].
Qed.

End NodeLocatorClaims.

(** ** The choice of the scan node *)

Section ScanSelection.
Import GoInt Types Source Samples.

Lemma narrowStep_keeps_bound (st : Z * option Rast.Node) (node : Rast.Node) :
  fst (narrowStep st node) = fst st.
Proof.
  destruct st as [w t]. unfold narrowStep.
  destruct (Rast.ParseLocationRange node) as [r|]; [|reflexivity].
  destruct (_ <? w); reflexivity.
Qed.

Lemma narrowStep_assigns (t : option Rast.Node) (node : Rast.Node) :
  narrowStep (MaxInt, t) node
  = (MaxInt, if assignable node then Some node else t).
Proof.
  unfold narrowStep, assignable.
  destruct (Rast.ParseLocationRange node) as [r|]; [|reflexivity].
  destruct (_ <? MaxInt); reflexivity.
Qed.

Lemma last_default_irrelevant {A : Type} (x : A) (l : list A) (d d' : A) :
  List.last (x :: l) d = List.last (x :: l) d'.
Proof.
  revert x. induction l as [|y l IH]; intros x; [reflexivity|].
  change (List.last (y :: l) d = List.last (y :: l) d'). apply IH.
Qed.

(** The loop keeps [mostNarrowWidth] at [math.MaxInt], so every scan node
    with a range replaces the target: the loop ends on the last of them,
    whatever the widths and whatever the offset. *)
Lemma narrow_loop_keeps_last (scanNodes : list Rast.Node) (t : option Rast.Node) :
  fold_left narrowStep scanNodes (MaxInt, t)
  = (MaxInt, List.last (map Some (List.filter assignable scanNodes)) t).
Proof.
  revert t. induction scanNodes as [|n ns IH]; intros t; [reflexivity|].
  cbn [fold_left List.filter]. rewrite narrowStep_assigns, IH.
  destruct (assignable n); [|reflexivity].
  cbn [map]. destruct (map Some (List.filter assignable ns)) as [|o l];
    [reflexivity|].
  change (List.last (Some n :: o :: l) t) with (List.last (o :: l) t).
  f_equal. apply last_default_irrelevant.
Qed.

(** X11.  The scan node the selection loop ends on is the last scan
    node in traversal order that has a range of width below
    [math.MaxInt], whatever the offset; none when there is no such scan
    node. *)
Lemma selectTargetScanNode_is_last (output : AnalyzerOutput) :
  selectTargetScanNode output
  = List.last (map Some (List.filter assignable
                 (List.filter Rast.isScanNode (Rast.Walk (Statement output))))) None.
Proof. unfold selectTargetScanNode. rewrite narrow_loop_keeps_last. reflexivity. Qed.

(** C2.  The code does not select the narrowest scan that contains the
    offset.  In the resolved tree of [SELECT a.x FROM t AS a, u AS b] the
    scans with a range are the project scan (bytes 0 to 30), the scan of
    [t] (16 to 17) and the scan of [u] (24 to 25).  At offset 9 only the
    project scan contains the offset, at offset 16 the narrowest scan
    containing it is the scan of [t]; the loop selects the scan of [u],
    which contains neither offset. *)
Theorem narrowest_scan_is_not_selected :
  let scanNodes := List.filter Rast.isScanNode (Rast.Walk TwoTables.statement) in
  let containing termOffset :=
    List.filter (fun n => covers (Rast.ParseLocationRange n) termOffset) scanNodes in
  containing 9 = [TwoTables.projectScan]
  /\ containing 16 = [TwoTables.projectScan; TwoTables.scanT]
  /\ widthOf TwoTables.projectScan = Some 30
  /\ widthOf TwoTables.scanT = Some 1
  /\ narrowestContaining scanNodes 9 = Some TwoTables.projectScan
  /\ narrowestContaining scanNodes 16 = Some TwoTables.scanT
  /\ selectTargetScanNode TwoTables.output = Some TwoTables.scanU
  /\ covers (Rast.ParseLocationRange TwoTables.scanU) 9 = false
  /\ covers (Rast.ParseLocationRange TwoTables.scanU) 16 = false.
Proof. cbv zeta. repeat split; vm_compute; reflexivity. Qed.

End ScanSelection.

(** ** The hover resolver *)

Section HoverFacts.
Import Lsp Types Errors Source.

(** Once the table strategy has returned nothing, [TermDocument] is what
    the strategies on the resolved statement give. *)
Lemma TermDocument_in_statement p uri position sql targetNode output :
  reachesStatement p uri position sql targetNode output ->
  TermDocument p uri position
  = resolveInStatement p (parsedFileOf p uri sql) targetNode
      (termOffsetOf p uri sql position).
Proof.
  intros ((Hcache & Hsearch) & Hsilent & _).
  unfold TermDocument, termOffsetOf, parsedFileOf in *.
  rewrite Hcache. cbv zeta. rewrite Hsearch.
  destruct Hsilent as [Hnone | (tableNode & Hsome & Hempty)].
  - rewrite Hnone. reflexivity.
  - rewrite Hsome, Hempty. reflexivity.
Qed.

(** When no function call and no struct field access covers the offset,
    [TermDocument] is the column-reference strategy followed, if that
    one returns nothing, by the select-column strategy. *)
Lemma TermDocument_at_column_ref p uri position sql targetNode output :
  reachesColumnRef p uri position sql targetNode output ->
  TermDocument p uri position
  = match columnRefStrategy p output (termOffsetOf p uri sql position) with
    | Some r => r
    | None => selectColumnStrategy p targetNode output (termOffsetOf p uri sql position)
    end.
Proof.
  intros (Hreach & Hfn & Hfield).
  rewrite (TermDocument_in_statement _ _ _ _ _ _ Hreach).
  destruct Hreach as (_ & _ & Hout).
  unfold resolveInStatement. rewrite Hout, Hfn, Hfield. reflexivity.
Qed.



Lemma find_none_of_forall {A : Type} (test : A -> bool) (l : list A) :
  Forall (fun a => test a = false) l -> List.find test l = None.
Proof.
  induction 1 as [|a l Ha _ IH]; [reflexivity|].
  cbn [List.find]. rewrite Ha. exact IH.
Qed.

(** Without the document the hover dereferences a nil pointer. *)
Lemma TermDocument_without_document p uri position :
  cache p !! uri = None -> TermDocument p uri position = Panics.
Proof. intros H. unfold TermDocument. rewrite H. reflexivity. Qed.

End HoverFacts.

Section HoverClaims.
Import Lsp Types Errors Source Samples.






(** C10.  When the hover has come to the select-column strategy, a select
    item lies above the located node, and the candidate name, its
    prefixes removed, names no column of the selected scan, then
    [TermDocument] returns the error "failed to get column info"
    wrapping "failed to find column info". *)
Theorem select_column_without_match_fails
    p uri position sql targetNode output selectColumnNode scan columnName :
  reachesSelectColumn p uri position sql targetNode output ->
  lookupNode Ast.SelectColumnKind targetNode = Some selectColumnNode ->
  selectTargetScanNode output = Some scan ->
  getSelectColumnName (Ast.self selectColumnNode) = Some columnName ->
  Forall (fun c => Rast.Name c <> strippedName scan columnName) (Rast.ColumnList scan) ->
  TermDocument p uri position
  = Fails (Wrapf "failed to get column info: %w"
             (Errorf "failed to find column info" [])).
Proof.
  intros (Hreach & Hnone) Hitem Hscan Hname Hmiss.
  rewrite (TermDocument_at_column_ref _ _ _ _ _ _ Hreach), Hnone.
  unfold selectColumnStrategy, getSelectColumnNodeToAnalyzedOutputCoumnNode.
  rewrite Hitem, Hscan, Hname.
  fold (strippedName scan columnName).
  rewrite find_none_of_forall; [reflexivity|].
  eapply Forall_impl; [exact Hmiss|].
  intros c Hc. cbv beta in *. apply String.eqb_neq. exact Hc.
Qed.

Lemma select_column_without_match_fails_witness :
  exists sql targetNode selectColumnNode,
    reachesSelectColumn (TwoTables.project tableWithK) uri TwoTables.overX
      sql targetNode TwoTables.output
    /\ lookupNode Ast.SelectColumnKind targetNode = Some selectColumnNode
    /\ selectTargetScanNode TwoTables.output = Some TwoTables.scanU
    /\ getSelectColumnName (Ast.self selectColumnNode) = Some "a.x"
    /\ Forall (fun c => Rast.Name c <> strippedName TwoTables.scanU "a.x")
         (Rast.ColumnList TwoTables.scanU)
    /\ TermDocument (TwoTables.project tableWithK) uri TwoTables.overX
       = Fails (Wrapf "failed to get column info: %w"
                  (Errorf "failed to find column info" [])).
Proof.
  do 3 eexists.
  split; [reaches|].
  split; [evaluate|].
  split; [evaluate|].
  split; [evaluate|].
  split; [repeat constructor; vm_compute; discriminate|].
  refine (select_column_without_match_fails
            (TwoTables.project tableWithK) uri TwoTables.overX _ _
            TwoTables.output _ TwoTables.scanU "a.x" _ _ _ _ _).
  - reaches.
  - evaluate.
  - evaluate.
  - evaluate.
  - repeat constructor. vm_compute. discriminate.
Defined.

(** C8.  A hover for a URI that is not in the document cache does not
    report not-found: [TermDocument] reads [RawText] through the nil
    pointer the cache returns and panics, where [GetFile] tests for nil
    and reports not-found. *)
Theorem hover_without_document_panics p uri position :
  cache p !! uri = None ->
  TermDocument p uri position = Panics
  /\ GetFile p uri = (EmptyString, false).
Proof.
  intros H. split; [apply TermDocument_without_document; exact H|].
  unfold GetFile. rewrite H. reflexivity.
Qed.

Lemma hover_without_document_panics_witness :
  cache (DeleteFile (SelectAlias.project unknownTable) uri) !! uri = None
  /\ TermDocument (SelectAlias.project unknownTable) uri SelectAlias.overX
     = Returns [renderColumn "x" "INT64"]
  /\ TermDocument (DeleteFile (SelectAlias.project unknownTable) uri) uri
       SelectAlias.overX = Panics
  /\ GetFile (DeleteFile (SelectAlias.project unknownTable) uri) uri
     = (EmptyString, false).
Proof.
  split; [evaluate|].
  split; [evaluate|].
  apply (hover_without_document_panics
           (DeleteFile (SelectAlias.project unknownTable) uri) uri SelectAlias.overX).
  vm_compute. reflexivity.
Defined.

(** After [DeleteFile] the URI is not in the cache, whatever was there. *)
Lemma hover_after_delete_panics p uri position :
  TermDocument (DeleteFile p uri) uri position = Panics.
Proof.
  apply TermDocument_without_document. unfold DeleteFile, with_cache. cbn [cache].
  apply lookup_delete_eq.
Qed.

(** The current revision names a select item by the dotted path of its
    expression and never reads the alias; the older revision reads the
    alias first, as the specification words it.  The two agree on items
    without an alias. *)
Lemma candidate_name_ignores_alias :
  let item := Ast.SelectColumnNode (range 7 15)
                (Ast.PathExpressionNode
                   {| Ast.path_range := range 7 10; Ast.Names := ["a"; "x"] |})
                (Some "y") in
  getSelectColumnName item = Some "a.x"
  /\ Revision0.getSelectColumnName item = Some "y"
  /\ candidateNameBySpec item = Some "y".
Proof. cbv zeta. repeat split. Qed.

Lemma candidate_name_without_alias lRange expression :
  getSelectColumnName (Ast.SelectColumnNode lRange expression None)
  = candidateNameBySpec (Ast.SelectColumnNode lRange expression None).
Proof. destruct expression; reflexivity. Qed.

(** C9.  For the text [SELECT a.x FROM t AS a] with the cursor over [x]
    (line 0, character 9, offset 9), whatever the metadata store
    answers: the located node is the path [a.x]; no earlier strategy
    returns, so the hover resolves through the select-column strategy;
    the select item has no alias and the candidate name is the dotted
    path [a.x], as the specification words it; the selected scan is the
    scan of [t], from which the prefix [a] is collected; the prefix
    removed, the name is [x], which is found in the column list of the
    scan of [t]; and the hover is the rendering of that column. *)
Theorem hover_select_alias_scenario
    (store : string -> result Bigquery.TableMetadata) :
  let p := SelectAlias.project store in
  let sql := {| RawText := SelectAlias.text; Version := 1 |} in
  let output := {| Statement := SelectAlias.statement |} in
  exists targetNode selectColumnNode,
    termOffsetOf p uri sql SelectAlias.overX = 9
    /\ locates p uri SelectAlias.overX sql targetNode
    /\ Ast.self targetNode
       = Ast.PathExpressionNode
           {| Ast.path_range := range 7 10; Ast.Names := ["a"; "x"] |}
    /\ reachesSelectColumn p uri SelectAlias.overX sql targetNode output
    /\ lookupNode Ast.SelectColumnKind targetNode = Some selectColumnNode
    /\ Ast.self selectColumnNode = SelectAlias.selectItem
    /\ getSelectColumnName SelectAlias.selectItem = Some "a.x"
    /\ candidateNameBySpec SelectAlias.selectItem = Some "a.x"
    /\ selectTargetScanNode output = Some SelectAlias.tableScan
    /\ collectRefNames SelectAlias.tableScan = ["a"]
    /\ strippedName SelectAlias.tableScan "a.x" = "x"
    /\ List.find (fun c => String.eqb (Rast.Name c) "x")
         (Rast.ColumnList SelectAlias.tableScan) = Some columnX
    /\ Rast.TableName columnX = "t"
    /\ getSelectColumnNodeToAnalyzedOutputCoumnNode output SelectAlias.selectItem 9
       = Returns columnX
    /\ TermDocument p uri SelectAlias.overX
       = selectColumnStrategy p targetNode output 9
    /\ TermDocument p uri SelectAlias.overX
       = match store "t" with
         | Err _ => Returns [renderColumn "x" "INT64"]
         | Ok tableMetadata =>
             match findField columnX (Bigquery.Schema tableMetadata) with
             | Some c => Returns [renderField c]
             | None => Returns []
             end
         end.
Proof.
  cbv zeta. do 2 eexists.
  split; [evaluate|].
  split; [split; evaluate|].
  split; [reflexivity|].
  split; [reaches|].
  split; [evaluate|].
  split; [reflexivity|].
  split; [reflexivity|].
  split; [reflexivity|].
  split; [evaluate|].
  split; [reflexivity|].
  split; [evaluate|].
  split; [evaluate|].
  split; [reflexivity|].
  split; [evaluate|].
  split; vm_compute; reflexivity.
Qed.

End HoverClaims.

(** ** The diagnostic scheduler *)

Section SchedulerClaims.
Import Lsp Langserver.

Lemma cancelPrevious_fields uri s :
  running (cancelPrevious uri s) = running s
  /\ contexts (cancelPrevious uri s) = contexts s
  /\ started (cancelPrevious uri s) = started s
  /\ cancelled (cancelPrevious uri s)
     = match running s !! uri with
       | Some c => {[c]} ∪ cancelled s
       | None => cancelled s
       end.
Proof. unfold cancelPrevious. destruct (running s !! uri); repeat split. Qed.

Lemma afterRound_eq uri s :
  afterRound s uri
  = spawn uri (length (contexts s))
      (install uri (length (contexts s)) (snd (withCancel uri (cancelPrevious uri s)))).
Proof.
  unfold afterRound, round, withCancel.
  destruct (cancelPrevious_fields uri s) as (_ & Hc & _).
  cbn [List.last snd]. rewrite Hc. reflexivity.
Qed.

Lemma afterRound_fields uri s :
  running (afterRound s uri) = <[uri := length (contexts s)]> (running s)
  /\ contexts (afterRound s uri) = contexts s ++ [uri]
  /\ cancelled (afterRound s uri) = cancelled (cancelPrevious uri s)
  /\ started (afterRound s uri) = started s ++ [(length (contexts s), uri)].
Proof.
  rewrite afterRound_eq.
  destruct (cancelPrevious_fields uri s) as (Hr & Hc & Hs & _).
  unfold spawn, install, withCancel. cbn.
  rewrite Hr, Hc, Hs. repeat split.
Qed.

Lemma settled_initial : settled initial.
Proof.
  split.
  - intros uri c. unfold outstanding. cbn. rewrite lookup_empty, lookup_nil.
    split; [intros [? _]; discriminate | discriminate].
  - intros c. cbn. intros H. apply elem_of_empty in H. contradiction.
Qed.

Lemma settled_afterRound s uri : settled s -> settled (afterRound s uri).
Proof.
  intros [Hrun Hold].
  destruct (afterRound_fields uri s) as (Hr & Hc & Hx & _).
  destruct (cancelPrevious_fields uri s) as (_ & _ & _ & Hx').
  rewrite Hx' in Hx. clear Hx'.
  split.
  - intros u c. unfold outstanding. rewrite Hr, Hc, Hx.
    destruct (decide (u = uri)) as [->|Hne].
    + rewrite lookup_insert_eq.
      split.
      * intros [Hctx Hlive].
        destruct (decide (c = length (contexts s))) as [->|Hc']; [reflexivity|].
        exfalso.
        assert (Hlt : (c < length (contexts s))%nat).
        { apply lookup_lt_Some in Hctx. rewrite length_app in Hctx. cbn in Hctx. lia. }
        rewrite lookup_app_l in Hctx by exact Hlt.
        destruct (running s !! uri) as [old|] eqn:E.
        -- assert (outstanding s uri c) as Ho.
           { split; [exact Hctx|]. intros H. apply Hlive, elem_of_union. right. exact H. }
           apply Hrun in Ho. rewrite E in Ho. injection Ho as ->.
           apply Hlive, elem_of_union. left. apply elem_of_singleton. reflexivity.
        -- assert (outstanding s uri c) as Ho by (split; assumption).
           apply Hrun in Ho. congruence.
      * intros [= <-]. split.
        -- rewrite lookup_app_r by lia. rewrite Nat.sub_diag. reflexivity.
        -- intros Hin.
           assert (length (contexts s) ∈ cancelled s -> False) as Hfresh
             by (intros H; apply Hold in H; lia).
           destruct (running s !! uri) as [old|] eqn:E; [|auto].
           apply elem_of_union in Hin as [Hin|Hin]; [|auto].
           apply elem_of_singleton in Hin. subst old.
           apply Hrun in E. destruct E as [E _]. apply lookup_lt_Some in E. lia.
    + rewrite lookup_insert_ne by congruence.
      rewrite <- Hrun. unfold outstanding.
      split.
      * intros [Hctx Hlive]. 
        destruct (decide (c = length (contexts s))) as [->|Hc'].
        -- rewrite lookup_app_r in Hctx by lia. rewrite Nat.sub_diag in Hctx.
           cbn in Hctx. congruence.
        -- assert (Hlt : (c < length (contexts s))%nat).
           { apply lookup_lt_Some in Hctx. rewrite length_app in Hctx. cbn in Hctx. lia. }
           rewrite lookup_app_l in Hctx by exact Hlt.
           split; [exact Hctx|]. destruct (running s !! uri); [|exact Hlive].
           intros H. apply Hlive, elem_of_union. right. exact H.
      * intros [Hctx Hlive]. split.
        -- rewrite lookup_app_l; [exact Hctx | eapply lookup_lt_Some; eauto].
        -- destruct (running s !! uri) as [old|] eqn:E; [|exact Hlive].
           intros Hin. apply elem_of_union in Hin as [Hin|Hin]; [|auto].
           apply elem_of_singleton in Hin. subst old.
           apply Hrun in E. destruct E as [E _]. congruence.
  - intros c. rewrite Hc, Hx, length_app. cbn [length].
    destruct (running s !! uri) as [old|] eqn:E.
    + intros Hin. apply elem_of_union in Hin as [Hin|Hin].
      * apply elem_of_singleton in Hin. subst old.
        apply Hrun in E. destruct E as [E _]. apply lookup_lt_Some in E. lia.
      * apply Hold in Hin. lia.
    + intros Hin. apply Hold in Hin. lia.
Qed.

Lemma settled_atMostOne s : settled s -> atMostOneOutstanding s.
Proof.
  intros [Hrun _] uri c1 c2 H1 H2.
  apply Hrun in H1, H2. congruence.
Qed.

Lemma atMostOne_same_contexts s s' :
  contexts s' = contexts s -> cancelled s' = cancelled s ->
  atMostOneOutstanding s -> atMostOneOutstanding s'.
Proof.
  intros Hc Hx H uri c1 c2. unfold outstanding. rewrite Hc, Hx. apply H.
Qed.

Lemma atMostOne_cancelPrevious uri s :
  atMostOneOutstanding s -> atMostOneOutstanding (cancelPrevious uri s).
Proof.
  intros H u c1 c2 [H1 L1] [H2 L2].
  destruct (cancelPrevious_fields uri s) as (_ & Hc & _ & Hx).
  rewrite Hc in H1, H2. rewrite Hx in L1, L2.
  apply (H u); (split; [assumption|]).
  - destruct (running s !! uri); [|exact L1].
    intros Hin. apply L1, elem_of_union. right. exact Hin.
  - destruct (running s !! uri); [|exact L2].
    intros Hin. apply L2, elem_of_union. right. exact Hin.
Qed.

Lemma round_atMostOne uri s :
  settled s -> Forall atMostOneOutstanding (round uri s).
Proof.
  intros Hs.
  pose proof (settled_atMostOne _ (settled_afterRound s uri Hs)) as H4.
  rewrite afterRound_eq in H4.
  unfold round, withCancel in *. cbn [snd] in *.
  destruct (cancelPrevious_fields uri s) as (_ & Hc & _).
  rewrite Hc in *.
  repeat apply Forall_cons_2; [| | | exact H4 | apply Forall_nil_2].
  - apply atMostOne_cancelPrevious, settled_atMostOne, Hs.
  - revert H4. apply atMostOne_same_contexts; reflexivity.
  - revert H4. apply atMostOne_same_contexts; reflexivity.
Qed.

Lemma trace_atMostOne requests :
  forall s, settled s -> Forall atMostOneOutstanding (trace requests s).
Proof.
  induction requests as [|uri rest IH]; intros s Hs; cbn [trace].
  - apply Forall_nil_2.
  - apply Forall_app. split.
    + apply round_atMostOne, Hs.
    + apply IH, settled_afterRound, Hs.
Qed.

Lemma settled_fold requests :
  forall s, settled s -> settled (fold_left afterRound requests s).
Proof.
  induction requests as [|uri rest IH]; intros s Hs; cbn [fold_left].
  - exact Hs.
  - apply IH, settled_afterRound, Hs.
Qed.

Lemma settled_diagnostic requests : settled (diagnostic requests).
Proof. apply settled_fold, settled_initial. Qed.

(** C7.  At every point of the loop of [diagnostic] (after each statement
    of each round) at most one context per URI is outstanding, that is,
    made for the URI and not cancelled.  In a round for a URI that has a
    cancel function [old] in [running]: [old] is called first, while the
    map still holds it; then the new context is made and its cancel
    function stored under the URI, replacing [old], which no key of the
    map holds any more; the new context is the one outstanding for the
    URI. *)
Theorem scheduler_one_handle_per_uri (handled : list DocumentURI) (uri : DocumentURI) :
  Forall atMostOneOutstanding (initial :: trace (handled ++ [uri]) initial)
  /\ forall old : CancelFunc,
       running (diagnostic handled) !! uri = Some old ->
       exists s1 s2 s3 s4 new,
         round uri (diagnostic handled) = [s1; s2; s3; s4]
         /\ diagnostic (handled ++ [uri]) = s4
         /\ old ∈ cancelled s1 /\ running s1 !! uri = Some old
         /\ new = length (contexts (diagnostic handled)) /\ new <> old
         /\ contexts s2 !! new = Some uri
         /\ old ∈ cancelled s2 /\ running s2 !! uri = Some old
         /\ running s3 !! uri = Some new
         /\ running s4 !! uri = Some new
         /\ (forall u, running s4 !! u <> Some old)
         /\ outstanding s4 uri new
         /\ ~ outstanding s4 uri old.
Proof.
  split.
  - apply Forall_cons_2.
    + apply settled_atMostOne, settled_initial.
    + apply trace_atMostOne, settled_initial.
  - intros old Hold.
    set (s := diagnostic handled) in *.
    pose proof (settled_diagnostic handled) as Hs. fold s in Hs.
    destruct Hs as [Hrun Hlt].
    pose proof (proj2 (Hrun uri old) Hold) as [Hctx Hlive].
    pose proof (lookup_lt_Some _ _ _ Hctx) as Hbound.
    destruct (cancelPrevious_fields uri s) as (Hr1 & Hc1 & Hs1 & Hx1).
    rewrite Hold in Hx1.
    do 5 eexists.
    split; [reflexivity|].
    split.
    { unfold diagnostic. rewrite fold_left_app. cbn [fold_left].
      fold (diagnostic handled). fold s. unfold afterRound, round, withCancel.
      reflexivity. }
    split; [rewrite Hx1; apply elem_of_union; left; apply elem_of_singleton; reflexivity|].
    split; [rewrite Hr1; exact Hold|].
    unfold withCancel. cbn [fst snd]. rewrite Hc1.
    split; [reflexivity|].
    split; [lia|].
    rewrite Hr1, Hx1. unfold outstanding, spawn, install.
    cbn [contexts running cancelled].
    assert (Hnew : (contexts s ++ [uri]) !! length (contexts s) = Some uri)
      by (rewrite lookup_app_r by lia; rewrite Nat.sub_diag; reflexivity).
    assert (Hin : old ∈ ({[old]} ∪ cancelled s : gset CancelFunc))
      by (apply elem_of_union; left; apply elem_of_singleton; reflexivity).
    split; [exact Hnew|].
    split; [exact Hin|].
    split; [exact Hold|].
    split; [apply lookup_insert_eq|].
    split; [apply lookup_insert_eq|].
    split.
    { intros u Hu.
      destruct (decide (u = uri)) as [->|Hne].
      - rewrite lookup_insert_eq in Hu. injection Hu as Hu. lia.
      - rewrite lookup_insert_ne in Hu by congruence.
        apply Hrun in Hu. destruct Hu as [Hu _]. congruence. }
    split.
    { split; [exact Hnew|].
      intros Hin'. apply elem_of_union in Hin' as [Hin'|Hin'].
      - apply elem_of_singleton in Hin'. lia.
      - apply Hlt in Hin'. lia. }
    intros [_ Hnot]. apply Hnot, Hin.
Qed.

Lemma scheduler_one_handle_per_uri_witness :
  running (diagnostic ["a.sql"]) !! "a.sql" = Some 0%nat
  /\ exists s1 s2 s3 s4 new,
       round "a.sql" (diagnostic ["a.sql"]) = [s1; s2; s3; s4]
       /\ diagnostic (["a.sql"] ++ ["a.sql"]) = s4
       /\ 0%nat ∈ cancelled s1 /\ running s1 !! "a.sql" = Some 0%nat
       /\ new = length (contexts (diagnostic ["a.sql"])) /\ new <> 0%nat
       /\ contexts s2 !! new = Some "a.sql"
       /\ 0%nat ∈ cancelled s2 /\ running s2 !! "a.sql" = Some 0%nat
       /\ running s3 !! "a.sql" = Some new
       /\ running s4 !! "a.sql" = Some new
       /\ (forall u, running s4 !! u <> Some 0%nat)
       /\ outstanding s4 "a.sql" new
       /\ ~ outstanding s4 "a.sql" 0%nat.
Proof.
  split; [evaluate|].
  apply (proj2 (scheduler_one_handle_per_uri ["a.sql"] "a.sql") 0%nat).
  vm_compute. reflexivity.
Defined.

End SchedulerClaims.

(** * Further properties of the code *)

Section PositionMapperMore.
Import GoInt Strings Bufio Lsp PositionMapper.

Lemma plainLine_empty : plainLine EmptyString.
Proof. split; [reflexivity | vm_compute; reflexivity]. Qed.

(** A text without a newline is its own single line for the scanner. *)
Lemma cutLine_single (data l0 : string) :
  Split data LF = [l0] -> cutLine data = (l0, EmptyString) /\ data = l0.
Proof.
  revert l0. induction data as [|c data IH]; intros l0 H; cbn [Split] in H.
  - injection H as <-. split; reflexivity.
  - cbn [cutLine]. destruct (Ascii.eqb c LF).
    + exfalso. injection H as _ H. exact (Split_nonempty data LF H).
    + pose proof (Split_nonempty data LF) as Hne.
      destruct (Split data LF) as [|m ms] eqn:E; [congruence|].
      injection H as <- ->.
      destruct (IH m eq_refl) as [Hc Hd]. rewrite Hc, <- Hd. split; reflexivity.
Qed.

Lemma lineStart_exhausted (k : nat) :
  linesLen (take k [EmptyString]) + Z.of_nat (k - 1) = Z.of_nat k.
Proof.
  destruct k as [|k]; [reflexivity|].
  cbn [take]. rewrite take_nil, linesLen_cons.
  replace (linesLen []) with 0 by reflexivity.
  replace (len EmptyString) with 0 by reflexivity. lia.
Qed.

(** The scanner on a text of plain lines: the lines of the text count
    with their separator, and every round after the last line counts one
    byte. *)
Lemma scanLoop_plain_text :
  forall (k : nat) (data : string) (acc : Z),
    Forall plainLine (take k (Split data LF)) ->
    0 <= acc ->
    acc + lineStart data k <= MaxInt ->
    scanLoop k (NewScanner data) acc = acc + lineStart data k.
Proof.
  unfold lineStart.
  induction k as [|k IH]; intros data acc Hplain Hacc Hmax.
  - cbn [take scanLoop]. unfold linesLen; simpl; lia.
  - destruct (Split data LF) as [|l0 [|l1 rest]] eqn:E.
    + exfalso. exact (Split_nonempty data LF E).
    + destruct (cutLine_single data l0 E) as [Hcut Hdata].
      cbn [take] in *. rewrite take_nil in *. rewrite linesLen_cons in *.
      replace (linesLen []) with 0 in * by reflexivity.
      apply Forall_cons in Hplain as [[Hcr Hfit] _].
      pose proof (len_nonneg l0) as H0.
      cbn [length] in *.
      assert (Hnext : scanLoop (S k) (NewScanner data) acc
                      = scanLoop k (NewScanner EmptyString) (acc + (len l0 + 1))).
      { unfold NewScanner. cbn [scanLoop]. unfold Scan.
        destruct data as [|c data].
        - subst l0. rewrite wrap_id by (unfold MinInt, MaxInt in *; lia). reflexivity.
        - rewrite Hcut.
          destruct (Z.ltb_spec (len l0) MaxScanTokenSize); [|lia].
          rewrite Hcr, wrap_id by (unfold MinInt, MaxInt in *; lia). reflexivity. }
      rewrite Hnext.
      pose proof (lineStart_exhausted k) as Hk.
      rewrite IH.
      * change (Split EmptyString LF) with [EmptyString]. cbn [length]. lia.
      * change (Split EmptyString LF) with [EmptyString].
        destruct k; cbn [take]; [constructor|].
        rewrite take_nil. constructor; [exact plainLine_empty | constructor].
      * lia.
      * change (Split EmptyString LF) with [EmptyString]. cbn [length]. lia.
    + destruct (cutLine_Split data l0 l1 rest E) as (data' & Hcut & Hsplit & Hne).
      cbn [take length] in *. rewrite linesLen_cons in *.
      apply Forall_cons in Hplain as [[Hcr Hfit] Hplain].
      pose proof (len_nonneg l0) as H0.
      pose proof (linesLen_nonneg (take k (l1 :: rest))) as H1.
      unfold NewScanner. cbn [scanLoop]. unfold Scan.
      destruct data as [|c data]; [congruence|].
      rewrite Hcut.
      destruct (Z.ltb_spec (len l0) MaxScanTokenSize); [|lia].
      rewrite Hcr, wrap_id by (unfold MinInt, MaxInt in *; lia).
      fold (NewScanner data'). rewrite <- Hsplit in *.
      rewrite IH; [| assumption | lia |]; rewrite Hsplit in *; cbn [length] in *; lia.
Qed.

Lemma lineStart_inside (T : string) (k : nat) :
  (k <= length (Split T LF))%nat -> lineStart T k = linesLen (take k (Split T LF)).
Proof. intros H. unfold lineStart. replace (k - _)%nat with 0%nat by lia. lia. Qed.

Lemma lineStart_beyond (T : string) (k : nat) :
  (length (Split T LF) <= k)%nat ->
  lineStart T k = len T + 1 + Z.of_nat (k - length (Split T LF)).
Proof.
  intros H. unfold lineStart. rewrite take_ge by lia. rewrite linesLen_Split. lia.
Qed.

Lemma lineStart_next (T : string) (k : nat) (l : string) :
  Split T LF !! k = Some l -> lineStart T (S k) = lineStart T k + len l + 1.
Proof.
  intros Hk. pose proof (lookup_lt_Some _ _ _ Hk) as Hlt.
  rewrite !lineStart_inside by lia.
  rewrite (take_S_r _ _ _ Hk), linesLen_app, linesLen_cons.
  replace (linesLen []) with 0 by reflexivity. lia.
Qed.

Lemma lineStart_nonneg (T : string) (k : nat) : 0 <= lineStart T k.
Proof. unfold lineStart. pose proof (linesLen_nonneg (take k (Split T LF))). lia. Qed.

(** X2.  On a text whose lines the scanner hands out unchanged,
    [positionToByteOffset] is the start of the line plus the character,
    with no check of either: inside the text the start of line [k] is the
    length of the lines before it with their separators; every line past
    the end of the text counts one more byte, without an error and
    without clamping. *)
Theorem positionToByteOffset_on_plain_text (T : string) (P : Position) :
  let k := Z.to_nat (Line P) in
  Forall plainLine (take k (Split T LF)) ->
  lineStart T k <= MaxInt ->
  MinInt <= lineStart T k + Character P <= MaxInt ->
  positionToByteOffset T P = lineStart T k + Character P
  /\ ((k < length (Split T LF))%nat ->
      lineStart T k = linesLen (take k (Split T LF)))
  /\ ((length (Split T LF) <= k)%nat ->
      lineStart T k = len T + 1 + Z.of_nat (k - length (Split T LF))).
Proof.
  intros k Hplain Hmax Hrange. split; [|split].
  - unfold positionToByteOffset. fold k.
    rewrite scanLoop_plain_text by (try assumption; lia).
    rewrite Z.add_0_l. apply wrap_id. exact Hrange.
  - intros H. apply lineStart_inside. lia.
  - apply lineStart_beyond.
Qed.

Lemma positionToByteOffset_on_plain_text_witness :
  let T := "ab" +:+ String LF "c" in
  let P := {| Line := 5; Character := 2 |} in
  Forall plainLine (take (Z.to_nat (Line P)) (Split T LF))
  /\ lineStart T (Z.to_nat (Line P)) <= MaxInt
  /\ MinInt <= lineStart T (Z.to_nat (Line P)) + Character P <= MaxInt
  /\ positionToByteOffset T P = 10.
Proof.
  cbv zeta.
  assert (Hplain : Forall plainLine
            (take (Z.to_nat 5) (Split ("ab" +:+ String LF "c") LF))).
  { repeat constructor; vm_compute; reflexivity. }
  assert (Hmax : lineStart ("ab" +:+ String LF "c") (Z.to_nat 5) <= MaxInt)
    by (vm_compute; discriminate).
  assert (Hrange : MinInt <= lineStart ("ab" +:+ String LF "c") (Z.to_nat 5) + 2 <= MaxInt)
    by (split; vm_compute; discriminate).
  split; [exact Hplain|]. split; [exact Hmax|]. split; [exact Hrange|].
  rewrite (proj1 (positionToByteOffset_on_plain_text
                    ("ab" +:+ String LF "c") {| Line := 5; Character := 2 |}
                    Hplain Hmax Hrange)).
  vm_compute. reflexivity.
Defined.

(** X3.  [positionToByteOffset] does not check the character against
    the length of the line: on plain lines, [c] characters past the
    separator of line [k] is the same offset as character [c] of line
    [k + 1]. *)
Theorem position_past_line_end_runs_on (T : string) (k : nat) (l : string) (c : Z) :
  Split T LF !! k = Some l ->
  Forall plainLine (take (S k) (Split T LF)) ->
  0 <= c ->
  lineStart T (S k) + c <= MaxInt ->
  positionToByteOffset T {| Line := Z.of_nat k; Character := len l + 1 + c |}
  = positionToByteOffset T {| Line := Z.of_nat k + 1; Character := c |}.
Proof.
  intros Hk Hplain Hc Hmax.
  pose proof (lineStart_next T k l Hk) as Hnext.
  pose proof (lineStart_nonneg T k) as Hnn.
  pose proof (len_nonneg l) as Hl.
  unfold positionToByteOffset. cbn [Line Character].
  replace (Z.to_nat (Z.of_nat k + 1)) with (S k) by lia.
  rewrite Nat2Z.id.
  rewrite !scanLoop_plain_text; try lia; try assumption.
  - rewrite !Z.add_0_l. f_equal. lia.
  - rewrite (take_S_r _ _ _ Hk) in Hplain. apply Forall_app in Hplain. tauto.
Qed.

Lemma position_past_line_end_runs_on_witness :
  let T := "ab" +:+ String LF "cd" in
  Split T LF !! 0%nat = Some "ab"
  /\ Forall plainLine (take 1 (Split T LF))
  /\ 0 <= 1
  /\ lineStart T 1 + 1 <= MaxInt
  /\ positionToByteOffset T {| Line := Z.of_nat 0; Character := len "ab" + 1 + 1 |}
     = positionToByteOffset T {| Line := Z.of_nat 0 + 1; Character := 1 |}.
Proof.
  cbv zeta.
  assert (Hplain : Forall plainLine (take 1 (Split ("ab" +:+ String LF "cd") LF)))
    by (repeat constructor; vm_compute; reflexivity).
  split; [reflexivity|]. split; [exact Hplain|]. split; [lia|].
  split; [vm_compute; discriminate|].
  apply (position_past_line_end_runs_on ("ab" +:+ String LF "cd") 0 "ab" 1);
    [reflexivity | exact Hplain | lia | vm_compute; discriminate].
Defined.

(** An offset inside the lines is found, on the line it falls in. *)
Lemma byteOffsetLoop_found (ls : list string) :
  forall (line0 off : Z),
    0 <= off < linesLen ls ->
    off <= MaxInt ->
    MinInt <= line0 -> line0 + Z.of_nat (length ls) - 1 <= MaxInt ->
    exists (k : nat) (l : string),
      ls !! k = Some l
      /\ 0 <= off - linesLen (take k ls) <= len l
      /\ byteOffsetLoop ls line0 off
         = ({| Line := line0 + Z.of_nat k;
               Character := off - linesLen (take k ls) |}, true).
Proof.
  induction ls as [|l0 ls IH]; intros line0 off Hoff Hmax Hlo Hhi.
  - unfold linesLen in Hoff. simpl in Hoff. lia.
  - rewrite linesLen_cons in Hoff. cbn [byteOffsetLoop length] in *.
    pose proof (len_nonneg l0) as H0.
    destruct (Z.ltb_spec off (len l0 + 1)) as [Hin|Hout].
    + exists 0%nat, l0. cbn [take]. replace (linesLen []) with 0 by reflexivity.
      split; [reflexivity|]. split; [lia|]. do 2 f_equal; lia.
    + assert (Hmore : (1 <= length ls)%nat).
      { destruct ls; [unfold linesLen in Hoff; simpl in Hoff; lia | cbn; lia]. }
      rewrite (wrap_id (line0 + 1)) by (unfold MinInt, MaxInt in *; lia).
      rewrite wrap_id by (unfold MinInt, MaxInt in *; lia).
      destruct (IH (line0 + 1) (off - (len l0 + 1))) as (k & l & Hk & Hc & Heq);
        try lia.
      exists (S k), l. cbn [take]. rewrite linesLen_cons.
      split; [exact Hk|]. split; [lia|].
      rewrite Heq. do 2 f_equal; lia.
Qed.

(** An offset past the lines is not found. *)
Lemma byteOffsetLoop_not_found (ls : list string) :
  forall (line0 off : Z),
    linesLen ls <= off <= MaxInt ->
    byteOffsetLoop ls line0 off = ({| Line := 0; Character := 0 |}, false).
Proof.
  induction ls as [|l0 ls IH]; intros line0 off Hoff; [reflexivity|].
  rewrite linesLen_cons in Hoff. cbn [byteOffsetLoop].
  pose proof (len_nonneg l0) as H0.
  pose proof (linesLen_nonneg ls) as H1.
  destruct (Z.ltb_spec off (len l0 + 1)); [lia|].
  rewrite (wrap_id (off - _)) by (unfold MinInt, MaxInt in *; lia).
  apply IH. lia.
Qed.

(** X5.  For every offset from 0 to the length of the text,
    [byteOffsetToPosition] reports found, and the position it returns is
    inside the text: the line exists, the character is between 0 and the
    length of that line, and the offset is the start of the line plus the
    character. *)
Theorem offset_inside_text_resolves_inside (T : string) (off : Z) :
  0 <= off <= len T ->
  len T <= MaxInt ->
  exists (P : Position) (l : string),
    byteOffsetToPosition T off = (P, true)
    /\ 0 <= Line P
    /\ Split T LF !! Z.to_nat (Line P) = Some l
    /\ 0 <= Character P <= len l
    /\ off = linesLen (take (Z.to_nat (Line P)) (Split T LF)) + Character P.
Proof.
  intros Hoff Hmax.
  pose proof (linesLen_Split T LF) as Hsum.
  pose proof (length_le_linesLen (Split T LF)) as Hcount.
  destruct (byteOffsetLoop_found (Split T LF) 0 off
              ltac:(lia) ltac:(lia) ltac:(unfold MinInt; lia) ltac:(lia))
    as (k & l & Hk & Hc & Heq).
  pose proof (lookup_lt_Some _ _ _ Hk) as Hlt.
  pose proof (linesLen_take_lookup _ _ _ Hk) as Hle.
  eexists _, l. unfold byteOffsetToPosition. rewrite Heq.
  split; [reflexivity|]. cbn [Line Character].
  rewrite Z.add_0_l, Nat2Z.id.
  split; [lia|]. split; [exact Hk|]. split; [exact Hc|]. lia.
Qed.

Lemma offset_inside_text_resolves_inside_witness :
  0 <= 3 <= len ("ab" +:+ String LF "c")
  /\ len ("ab" +:+ String LF "c") <= MaxInt
  /\ exists (P : Position) (l : string),
       byteOffsetToPosition ("ab" +:+ String LF "c") 3 = (P, true)
       /\ 0 <= Line P
       /\ Split ("ab" +:+ String LF "c") LF !! Z.to_nat (Line P) = Some l
       /\ 0 <= Character P <= len l
       /\ 3 = linesLen (take (Z.to_nat (Line P)) (Split ("ab" +:+ String LF "c") LF))
              + Character P.
Proof.
  split; [vm_compute; split; discriminate|].
  split; [vm_compute; discriminate|].
  apply (offset_inside_text_resolves_inside ("ab" +:+ String LF "c") 3).
  - vm_compute; split; discriminate.
  - vm_compute; discriminate.
Defined.

(** X6.  Outside the text: an offset past the length of the text is
    reported not found, with the zero position; a negative offset is
    reported found, on line 0 with the negative offset as character. *)
Theorem offset_outside_text (T : string) (off : Z) :
  off <= MaxInt ->
  off < 0 \/ len T < off ->
  byteOffsetToPosition T off
  = if off <? 0 then ({| Line := 0; Character := off |}, true)
    else ({| Line := 0; Character := 0 |}, false).
Proof.
  intros Hmax Hout. unfold byteOffsetToPosition.
  destruct (Z.ltb_spec off 0) as [Hneg|Hpos].
  - pose proof (Split_nonempty T LF) as Hne.
    destruct (Split T LF) as [|l0 ls]; [congruence|].
    cbn [byteOffsetLoop]. pose proof (len_nonneg l0).
    destruct (Z.ltb_spec off (len l0 + 1)); [reflexivity|lia].
  - apply byteOffsetLoop_not_found. rewrite linesLen_Split. lia.
Qed.

Lemma offset_outside_text_witness :
  4 <= MaxInt
  /\ (4 < 0 \/ len "abc" < 4)
  /\ byteOffsetToPosition "abc" 4 = ({| Line := 0; Character := 0 |}, false)
  /\ byteOffsetToPosition "abc" (-1) = ({| Line := 0; Character := -1 |}, true).
Proof.
  split; [vm_compute; discriminate|].
  split; [right; vm_compute; reflexivity|].
  split.
  - apply (offset_outside_text "abc" 4); [vm_compute; discriminate|].
    right. vm_compute. reflexivity.
  - apply (offset_outside_text "abc" (-1)); [vm_compute; discriminate|].
    left. lia.
Defined.

(** X7.  On a text of plain lines, mapping an offset inside the text to
    a position and back gives the offset. *)
Theorem offset_round_trip_on_plain_text (T : string) (off : Z) :
  0 <= off <= len T ->
  len T <= MaxInt ->
  Forall plainLine (Split T LF) ->
  snd (byteOffsetToPosition T off) = true
  /\ positionToByteOffset T (fst (byteOffsetToPosition T off)) = off.
Proof.
  intros Hoff Hmax Hplain.
  pose proof (linesLen_Split T LF) as Hsum.
  pose proof (length_le_linesLen (Split T LF)) as Hcount.
  destruct (byteOffsetLoop_found (Split T LF) 0 off
              ltac:(lia) ltac:(lia) ltac:(unfold MinInt; lia) ltac:(lia))
    as (k & l & Hk & Hc & Heq).
  pose proof (lookup_lt_Some _ _ _ Hk) as Hlt.
  pose proof (linesLen_take_lookup _ _ _ Hk) as Hle.
  pose proof (linesLen_nonneg (take k (Split T LF))) as Hnn.
  unfold byteOffsetToPosition. rewrite Heq. cbn [fst snd].
  split; [reflexivity|].
  unfold positionToByteOffset. cbn [Line Character].
  rewrite Z.add_0_l, Nat2Z.id.
  rewrite scanLoop_lines; try lia.
  - rewrite Z.add_0_l. rewrite wrap_id by (unfold MinInt, MaxInt in *; lia). lia.
  - apply Forall_take. exact Hplain.
Qed.

Lemma offset_round_trip_on_plain_text_witness :
  let T := "ab" +:+ String LF "c" in
  0 <= 3 <= len T
  /\ len T <= MaxInt
  /\ Forall plainLine (Split T LF)
  /\ snd (byteOffsetToPosition T 3) = true
  /\ positionToByteOffset T (fst (byteOffsetToPosition T 3)) = 3.
Proof.
  cbv zeta.
  assert (Hplain : Forall plainLine (Split ("ab" +:+ String LF "c") LF))
    by (repeat constructor; vm_compute; reflexivity).
  split; [vm_compute; split; discriminate|].
  split; [vm_compute; discriminate|].
  split; [exact Hplain|].
  apply (offset_round_trip_on_plain_text ("ab" +:+ String LF "c") 3);
    [vm_compute; split; discriminate | vm_compute; discriminate | exact Hplain].
Defined.

Lemma round_trip_on_plain_lines_witness :
  let T := "ab" +:+ String LF "cd" in
  let P := {| Line := 1; Character := 2 |} in
  0 <= Line P
  /\ Split T LF !! Z.to_nat (Line P) = Some "cd"
  /\ 0 <= Character P <= len "cd"
  /\ Forall plainLine (take (Z.to_nat (Line P)) (Split T LF))
  /\ len T <= MaxInt
  /\ byteOffsetToPosition T (positionToByteOffset T P) = (P, true).
Proof.
  cbv zeta.
  assert (Hplain : Forall plainLine
            (take (Z.to_nat 1) (Split ("ab" +:+ String LF "cd") LF)))
    by (repeat constructor; vm_compute; reflexivity).
  split; [cbn; lia|]. split; [reflexivity|].
  split; [vm_compute; split; discriminate|].
  split; [exact Hplain|]. split; [vm_compute; discriminate|].
  apply (round_trip_on_plain_lines ("ab" +:+ String LF "cd")
           {| Line := 1; Character := 2 |} "cd");
    [cbn; lia | reflexivity | vm_compute; split; discriminate
    | exact Hplain | vm_compute; discriminate].
Defined.

End PositionMapperMore.

Section ScannerMore.
Import GoInt Strings Bufio Lsp PositionMapper.

Lemma len_dropCR (l : string) :
  len (dropCR l) = len l - (if endsWithCR l then 1 else 0).
Proof.
  induction l as [|c l IH]; [reflexivity|].
  destruct l as [|d l].
  - cbn [dropCR endsWithCR]. destruct (Ascii.eqb c CR); unfold len; cbn; lia.
  - change (dropCR (String c (String d l))) with (String c (dropCR (String d l))).
    change (endsWithCR (String c (String d l))) with (endsWithCR (String d l)).
    rewrite !len_String in *. rewrite IH. lia.
Qed.

Lemma countCR_cons (l : string) (ls : list string) :
  countCR (l :: ls) = (if endsWithCR l then 1 else 0) + countCR ls.
Proof. reflexivity. Qed.

Lemma countCR_bounds (ls : list string) : 0 <= countCR ls <= linesLen ls.
Proof.
  induction ls as [|l ls IH]; [unfold countCR, linesLen; simpl; lia|].
  rewrite countCR_cons, linesLen_cons. pose proof (len_nonneg l).
  destruct (endsWithCR l); lia.
Qed.

(** The scanner on lines that fit its buffer: each line counts without
    its trailing carriage return. *)
Lemma scanLoop_fitting_lines :
  forall (k : nat) (data : string) (acc : Z),
    (k < length (Split data LF))%nat ->
    Forall (fun l => len l < MaxScanTokenSize) (take k (Split data LF)) ->
    0 <= acc ->
    acc + linesLen (take k (Split data LF)) <= MaxInt ->
    scanLoop k (NewScanner data) acc
    = acc + linesLen (take k (Split data LF)) - countCR (take k (Split data LF)).
Proof.
  induction k as [|k IH]; intros data acc Hlen Hfit Hacc Hmax.
  - cbn [take scanLoop]. unfold linesLen, countCR; simpl; lia.
  - destruct (Split data LF) as [|l0 [|l1 rest]] eqn:E;
      [cbn in Hlen; lia | cbn in Hlen; lia |].
    destruct (cutLine_Split data l0 l1 rest E) as (data' & Hcut & Hsplit & Hne).
    cbn [take] in *. rewrite linesLen_cons in *. rewrite countCR_cons.
    apply Forall_cons in Hfit as [Hfit0 Hfit].
    unfold NewScanner. cbn [scanLoop]. unfold Scan.
    destruct data as [|c data]; [congruence|].
    rewrite Hcut.
    destruct (Z.ltb_spec (len l0) MaxScanTokenSize); [|lia].
    pose proof (len_nonneg l0) as H0.
    pose proof (len_nonneg (dropCR l0)) as H0'.
    pose proof (len_dropCR l0) as Hdrop.
    pose proof (linesLen_nonneg (take k (l1 :: rest))) as H1.
    pose proof (countCR_bounds (take k (l1 :: rest))) as H2.
    assert (Hstep : 0 <= len l0 - len (dropCR l0) <= 1)
      by (destruct (endsWithCR l0); lia).
    rewrite wrap_id by (unfold MinInt, MaxInt in *; lia).
    fold (NewScanner data'). rewrite <- Hsplit in *.
    rewrite IH; [| | assumption | lia | lia].
    + destruct (endsWithCR l0); lia.
    + rewrite Hsplit in *. cbn [length] in *. lia.
Qed.

(** X4.  For a position on a line of the text, every earlier line
    fitting the scanner's buffer, [positionToByteOffset] counts each
    earlier line without its trailing carriage return: the result is
    short of the byte offset by the number of earlier lines that end in
    CR. *)
Theorem positionToByteOffset_drops_carriage_returns (T : string) (P : Position) :
  let k := Z.to_nat (Line P) in
  (k < length (Split T LF))%nat ->
  Forall (fun l => len l < MaxScanTokenSize) (take k (Split T LF)) ->
  len T <= MaxInt ->
  MinInt <= linesLen (take k (Split T LF)) - countCR (take k (Split T LF))
            + Character P <= MaxInt ->
  positionToByteOffset T P
  = linesLen (take k (Split T LF)) - countCR (take k (Split T LF)) + Character P.
Proof.
  intros k Hk Hfit Hmax Hrange.
  destruct (lookup_lt_is_Some_2 _ _ Hk) as [l Hl].
  pose proof (linesLen_take_lookup _ _ _ Hl) as Hle.
  rewrite linesLen_Split in Hle. pose proof (len_nonneg l).
  unfold positionToByteOffset. fold k.
  rewrite scanLoop_fitting_lines by (try assumption; lia).
  rewrite Z.add_0_l. apply wrap_id. exact Hrange.
Qed.

Lemma positionToByteOffset_drops_carriage_returns_witness :
  let T := "a" +:+ String CR (String LF "bcd") in
  let P := {| Line := 1; Character := 1 |} in
  (Z.to_nat (Line P) < length (Split T LF))%nat
  /\ Forall (fun l => len l < MaxScanTokenSize) (take (Z.to_nat (Line P)) (Split T LF))
  /\ len T <= MaxInt
  /\ linesLen (take (Z.to_nat (Line P)) (Split T LF)) = 3
  /\ countCR (take (Z.to_nat (Line P)) (Split T LF)) = 1
  /\ positionToByteOffset T P = 3 - 1 + 1.
Proof.
  cbv zeta.
  assert (Hfit : Forall (fun l => len l < MaxScanTokenSize)
            (take (Z.to_nat 1) (Split ("a" +:+ String CR (String LF "bcd")) LF)))
    by (repeat constructor; vm_compute; reflexivity).
  split; [vm_compute; lia|]. split; [exact Hfit|]. split; [vm_compute; discriminate|].
  split; [reflexivity|]. split; [reflexivity|].
  apply (positionToByteOffset_drops_carriage_returns
           ("a" +:+ String CR (String LF "bcd")) {| Line := 1; Character := 1 |});
    [vm_compute; lia | exact Hfit | vm_compute; discriminate
    | split; vm_compute; discriminate].
Defined.

End ScannerMore.

Section NodeLocatorMore.
Import Types Errors Source.

(** The traversal with [visit] ends on its last candidate, or on the
    target it started with when there is none. *)
Lemma visit_fold_cases {N : Type} (wanted : N -> bool)
    (lRange : N -> option ParseLocationRange) (termOffset : Z) (l : list N) :
  forall t : option N,
    (fold_left (visit wanted lRange termOffset) l t = t
     /\ Forall (fun n => wanted n && covers (lRange n) termOffset = false) l)
    \/ exists pre n post,
         l = pre ++ n :: post
         /\ wanted n && covers (lRange n) termOffset = true
         /\ Forall (fun m => wanted m && covers (lRange m) termOffset = false) post
         /\ fold_left (visit wanted lRange termOffset) l t = Some n.
Proof.
  induction l as [|x l IH]; intros t.
  - left. split; [reflexivity | constructor].
  - cbn [fold_left].
    destruct (IH (visit wanted lRange termOffset t x))
      as [[Heq Hnone] | (pre & n & post & -> & Hn & Hpost & Heq)].
    + unfold visit in *.
      destruct (wanted x && covers (lRange x) termOffset) eqn:Hx.
      * right. exists [], x, l. repeat split; assumption.
      * left. split; [exact Heq|]. constructor; assumption.
    + right. exists (x :: pre), n, post. repeat split; assumption.
Qed.

(** X9.  [searchResolvedAstNode] returns a node of the resolved tree of
    the wanted kind whose range covers the offset, namely the last such
    node in traversal order; it returns not-found exactly when no node of
    the tree is such a candidate.  A node without a range is never
    returned. *)
Theorem searchResolvedAstNode_last_candidate
    (T : Rast.Node -> bool) (output : AnalyzerOutput) (termOffset : Z) :
  match searchResolvedAstNode T output termOffset with
  | Some n =>
      T n = true
      /\ covers (Rast.ParseLocationRange n) termOffset = true
      /\ exists pre post,
           Rast.Walk (Statement output) = pre ++ n :: post
           /\ Forall (fun m => resolvedCandidate T termOffset m = false) post
  | None =>
      Forall (fun m => resolvedCandidate T termOffset m = false)
        (Rast.Walk (Statement output))
  end.
Proof.
  unfold searchResolvedAstNode, resolvedCandidate.
  destruct (visit_fold_cases T Rast.ParseLocationRange termOffset
              (Rast.Walk (Statement output)) None)
    as [[Heq Hnone] | (pre & n & post & Hwalk & Hn & Hpost & Heq)];
    rewrite Heq.
  - exact Hnone.
  - apply andb_true_iff in Hn as [HT Hc].
    split; [exact HT|]. split; [exact Hc|]. exists pre, post. split; assumption.
Qed.

(** X8.  [searchAstNode] returns a node of the surface tree of the
    wanted kind whose range covers the offset, namely the last such node
    in traversal order; it returns not-found exactly when no node of the
    tree is such a candidate. *)
Theorem searchAstNode_last_candidate
    (T : Ast.Kind) (node : Ast.Node) (termOffset : Z) :
  match searchAstNode T node termOffset with
  | Some n =>
      Ast.isKind T (Ast.self n) = true
      /\ covers (Ast.ParseLocationRange (Ast.self n)) termOffset = true
      /\ exists pre post,
           Ast.Walk None node = pre ++ n :: post
           /\ Forall (fun m => astCandidate T termOffset m = false) post
  | None =>
      Forall (fun m => astCandidate T termOffset m = false) (Ast.Walk None node)
  end.
Proof.
  unfold searchAstNode, astCandidate.
  destruct (visit_fold_cases (fun n => Ast.isKind T (Ast.self n))
              (fun n => Ast.ParseLocationRange (Ast.self n)) termOffset
              (Ast.Walk None node) None)
    as [[Heq Hnone] | (pre & n & post & Hwalk & Hn & Hpost & Heq)];
    rewrite Heq.
  - exact Hnone.
  - apply andb_true_iff in Hn as [HT Hc].
    split; [exact HT|]. split; [exact Hc|]. exists pre, post. split; assumption.
Qed.

(** What [lookupNode] finds is of the wanted kind and lies on the chain
    from the starting node to the root. *)
Lemma lookupNode_in_chain (T : Ast.Kind) :
  forall n a : Ast.Located,
    lookupNode T n = Some a ->
    In a (n :: ancestors n) /\ Ast.isKind T (Ast.self a) = true.
Proof.
  fix IH 1. intros [s parent] a.
  cbn [lookupNode ancestors Ast.self].
  destruct (Ast.isKind T s) eqn:Hs.
  - intros [= <-]. split; [left; reflexivity | exact Hs].
  - destruct parent as [q|]; [|discriminate].
    intros H. destruct (IH q a H) as [Hin Hk].
    split; [right; exact Hin | exact Hk].
Qed.

(** X10.  As [TermDocument] uses it: started at the path expression
    that [searchAstNode] located, [lookupNode] for table path expressions
    or for select items returns a proper ancestor of that node, of the
    wanted kind, never the node itself. *)
Theorem lookup_from_located_path_is_proper_ancestor
    (node : Ast.Node) (termOffset : Z) (target a : Ast.Located) (T : Ast.Kind) :
  searchAstNode Ast.PathExpressionKind node termOffset = Some target ->
  T <> Ast.PathExpressionKind ->
  lookupNode T target = Some a ->
  In a (ancestors target)
  /\ Ast.isKind T (Ast.self a) = true
  /\ a <> target.
Proof.
  intros Hsearch HT Hlook.
  pose proof (searchAstNode_kind_helper := visit_fold_cases
                (fun n => Ast.isKind Ast.PathExpressionKind (Ast.self n))
                (fun n => Ast.ParseLocationRange (Ast.self n)) termOffset
                (Ast.Walk None node) None).
  unfold searchAstNode in Hsearch.
  destruct searchAstNode_kind_helper
    as [[Heq _] | (pre & n & post & _ & Hn & _ & Heq)];
    rewrite Heq in Hsearch; [discriminate|].
  injection Hsearch as ->.
  apply andb_true_iff in Hn as [Hpath _].
  destruct (lookupNode_in_chain T target a Hlook) as [Hin Hkind].
  assert (Hne : a <> target).
  { intros ->. destruct (Ast.self target), T; cbn in *; congruence. }
  split; [|split; assumption].
  destruct Hin as [Heq'|Hin]; [congruence | exact Hin].
Qed.

Lemma lookup_from_located_path_is_proper_ancestor_witness :
  exists target a,
    searchAstNode Ast.PathExpressionKind Samples.SelectAlias.surface 9 = Some target
    /\ Ast.SelectColumnKind <> Ast.PathExpressionKind
    /\ lookupNode Ast.SelectColumnKind target = Some a
    /\ In a (ancestors target)
    /\ Ast.isKind Ast.SelectColumnKind (Ast.self a) = true
    /\ a <> target.
Proof.
  do 2 eexists.
  split; [evaluate|]. split; [discriminate|]. split; [evaluate|].
  eapply (lookup_from_located_path_is_proper_ancestor Samples.SelectAlias.surface 9);
    [evaluate | discriminate | evaluate].
Defined.

End NodeLocatorMore.

Section SelectColumnMore.
Import GoInt Strings Types Errors Source Samples.

Lemma append_assoc (a b c : string) : (a +:+ b) +:+ c = a +:+ (b +:+ c).
Proof.
  induction a as [|x a IH]; [reflexivity|].
  rewrite !append_String, IH. reflexivity.
Qed.

Lemma HasPrefix_append (p s : string) : HasPrefix (p +:+ s) p = true.
Proof.
  induction p as [|x p IH]; [destruct s; reflexivity|].
  rewrite append_String. cbn [HasPrefix]. rewrite Ascii.eqb_refl. exact IH.
Qed.

Lemma drop_bytes_append (p s : string) : drop_bytes (String.length p) (p +:+ s) = s.
Proof.
  induction p as [|x p IH]; [destruct s; reflexivity|].
  rewrite append_String. cbn [String.length drop_bytes]. exact IH.
Qed.

Lemma HasPrefix_split (s p : string) :
  HasPrefix s p = true -> s = p +:+ drop_bytes (String.length p) s.
Proof.
  revert s. induction p as [|x p IH]; intros s H.
  - destruct s; reflexivity.
  - destruct s as [|c s]; [discriminate|].
    cbn [HasPrefix] in H. apply andb_true_iff in H as [Hc Hp].
    apply Ascii.eqb_eq in Hc. subst c.
    rewrite append_String. cbn [String.length drop_bytes]. f_equal. apply IH, Hp.
Qed.

(** X13.  The prefix loop removes exactly the name and its dot: a
    column name made of the reference name, a dot and a rest becomes
    that rest; any other column name is left as it is. *)
Theorem removeTablePrefix_removes_exactly_the_prefix :
  (forall refName name : string,
      removeTablePrefix (refName +:+ dot +:+ name) refName = name)
  /\ (forall columnName refName : string,
        (HasPrefix columnName (refName +:+ dot) = true
         /\ columnName = refName +:+ dot +:+ removeTablePrefix columnName refName)
        \/ (HasPrefix columnName (refName +:+ dot) = false
            /\ removeTablePrefix columnName refName = columnName)).
Proof.
  split.
  - intros refName name. unfold removeTablePrefix, TrimPrefix.
    rewrite <- append_assoc, HasPrefix_append. apply drop_bytes_append.
  - intros columnName refName. unfold removeTablePrefix, TrimPrefix.
    destruct (HasPrefix columnName (refName +:+ dot)) eqn:H.
    + left. split; [reflexivity|]. rewrite <- append_assoc. apply HasPrefix_split, H.
    + right. split; reflexivity.
Qed.

(** X12.  The walk down the inputs of a scan collects at most one
    reference name (the alias of the table scan or the name of the WITH
    query it ends on), so at most one prefix is removed from the
    candidate name. *)
Theorem collectRefNames_at_most_one (scan : Rast.Node) (columnName : string) :
  (collectRefNames scan = []
   /\ strippedName scan columnName = columnName)
  \/ exists refName,
       collectRefNames scan = [refName]
       /\ strippedName scan columnName = removeTablePrefix columnName refName.
Proof.
  unfold strippedName.
  revert scan. fix IH 1. intros scan.
  destruct scan as [r cs es [i|] | r cs es [q|] | r cs [i|] os | r cs alias
                    | r cs name | r cs ch | r f args | r ty e | r c | r ch];
    cbn [collectRefNames];
    try (left; split; reflexivity);
    try (apply IH).
  - destruct (String.eqb alias EmptyString).
    + left. split; reflexivity.
    + right. exists alias. split; reflexivity.
  - right. exists name. split; reflexivity.
Qed.

(** X14.  [getSelectColumnNodeToAnalyzedOutputCoumnNode] panics exactly
    when the select item is a path expression and the selection loop has
    selected no scan node: [ColumnList] is then called on a nil scan.
    When the select item is not a path expression the error comes first
    and there is no panic. *)
Theorem select_column_resolution_panics_iff
    (output : AnalyzerOutput) (column : Ast.Node) (termOffset : Z) :
  getSelectColumnNodeToAnalyzedOutputCoumnNode output column termOffset = Panics
  <-> (getSelectColumnName column <> None /\ selectTargetScanNode output = None).
Proof.
  unfold getSelectColumnNodeToAnalyzedOutputCoumnNode.
  destruct (getSelectColumnName column) as [name|].
  - destruct (selectTargetScanNode output) as [scan|].
    + destruct (List.find _ _); split; try discriminate; intros [_ H]; discriminate.
    + split; [intros _; split; [discriminate | reflexivity] | reflexivity].
  - split; [discriminate | intros [H _]; congruence].
Qed.

(** X15.  A column returned by
    [getSelectColumnNodeToAnalyzedOutputCoumnNode] is a column of the
    selected scan, and its name is the candidate name with the collected
    prefix removed. *)
Theorem select_column_resolution_returns_scan_column
    (output : AnalyzerOutput) (column : Ast.Node) (termOffset : Z) (c : Rast.Column) :
  getSelectColumnNodeToAnalyzedOutputCoumnNode output column termOffset = Returns c ->
  exists scan columnName,
    selectTargetScanNode output = Some scan
    /\ getSelectColumnName column = Some columnName
    /\ In c (Rast.ColumnList scan)
    /\ Rast.Name c = strippedName scan columnName.
Proof.
  unfold getSelectColumnNodeToAnalyzedOutputCoumnNode.
  destruct (getSelectColumnName column) as [name|]; [|discriminate].
  destruct (selectTargetScanNode output) as [scan|]; [|discriminate].
  fold (strippedName scan name).
  destruct (List.find _ _) as [c'|] eqn:Hfind; [|discriminate].
  intros [= <-]. apply List.find_some in Hfind as [Hin Heq].
  exists scan, name. repeat split; try assumption.
  apply String.eqb_eq. exact Heq.
Qed.

Lemma select_column_resolution_returns_scan_column_witness :
  getSelectColumnNodeToAnalyzedOutputCoumnNode
    {| Statement := SelectAlias.statement |} SelectAlias.selectItem 9
  = Returns columnX
  /\ exists scan columnName,
       selectTargetScanNode {| Statement := SelectAlias.statement |} = Some scan
       /\ getSelectColumnName SelectAlias.selectItem = Some columnName
       /\ In columnX (Rast.ColumnList scan)
       /\ Rast.Name columnX = strippedName scan columnName.
Proof.
  assert (H : getSelectColumnNodeToAnalyzedOutputCoumnNode
                {| Statement := SelectAlias.statement |} SelectAlias.selectItem 9
              = Returns columnX) by (vm_compute; reflexivity).
  split; [exact H|].
  exact (select_column_resolution_returns_scan_column _ _ _ _ H).
Defined.

End SelectColumnMore.

Section OlderRevisionMore.
Import Strings Source.

Lemma contains_byte_append_l (c : ascii) (p q : string) :
  contains_byte c p = true -> contains_byte c (p +:+ q) = true.
Proof.
  induction p as [|x p IH]; [discriminate|].
  rewrite append_String. cbn [contains_byte].
  intros H. apply orb_true_iff in H as [H|H]; apply orb_true_iff; [left|right]; auto.
Qed.

Lemma contains_byte_append_r (c : ascii) (p q : string) :
  contains_byte c q = true -> contains_byte c (p +:+ q) = true.
Proof.
  induction p as [|x p IH]; [rewrite append_empty; auto|].
  rewrite append_String. cbn [contains_byte].
  intros H. apply orb_true_iff. right. auto.
Qed.





End OlderRevisionMore.

Section HoverMore.
Import Strings Lsp Types Errors Source Samples.

Lemma HasPrefix_refl (p : string) : HasPrefix p p = true.
Proof.
  induction p as [|x p IH]; [reflexivity|].
  cbn [HasPrefix]. rewrite Ascii.eqb_refl. exact IH.
Qed.

Lemma HasPrefix_append_l (a b p : string) :
  HasPrefix a p = true -> HasPrefix (a +:+ b) p = true.
Proof.
  revert a. induction p as [|x p IH]; intros a H; [destruct (a +:+ b); reflexivity|].
  destruct a as [|c a]; [discriminate|].
  rewrite append_String. cbn [HasPrefix] in *.
  apply andb_true_iff in H as [Hc Hp]. rewrite Hc. cbn [andb]. apply IH, Hp.
Qed.

(** The table block is an error or the heading block followed by the
    schema block. *)
Lemma buildBigQueryTableMetadataMarkedString_shape p metadata :
  (exists err, buildBigQueryTableMetadataMarkedString p metadata = Fails err)
  \/ exists b1 b2,
       buildBigQueryTableMetadataMarkedString p metadata = Returns [b1; b2]
       /\ Language b1 = markdown /\ Language b2 = yaml
       /\ HasPrefix (Value b1) ("## " +:+ Bigquery.FullID metadata) = true.
Proof.
  unfold buildBigQueryTableMetadataMarkedString.
  destruct (ToJSONFields p _) as [json|e]; [|left; eexists; reflexivity].
  destruct (jsonUnmarshal p json) as [result|e]; [|left; eexists; reflexivity].
  destruct (yamlMarshal p result) as [yamlText|e]; [|left; eexists; reflexivity].
  right. do 2 eexists. split; [reflexivity|]. cbn [Language Value].
  split; [reflexivity|]. split; [reflexivity|].
  destruct (0 <? len (Bigquery.TableDescription metadata)).
  - do 3 apply HasPrefix_append_l. apply HasPrefix_refl.
  - do 2 apply HasPrefix_append_l. apply HasPrefix_refl.
Qed.

(** X17.  When the located node lies under a table path expression
    with a table name, the hover never goes on to the other strategies
    and is never empty: it is an error wrapped in "failed to create table
    marked string", or, the metadata found, exactly two blocks, a
    markdown block that starts with the heading of the table and a yaml
    block. *)
Theorem table_hover_is_error_or_two_blocks
    p uri position sql targetNode tableNode tablePath :
  locates p uri position sql targetNode ->
  lookupNode Ast.TablePathExpressionKind targetNode = Some tableNode ->
  createTableNameFromTablePathExpressionNode (Ast.self tableNode) = Some tablePath ->
  (exists err,
      TermDocument p uri position
      = Fails (Wrapf "failed to create table marked string: %w" err))
  \/ exists metadata b1 b2,
       getTableMetadataFromPath p tablePath = Ok metadata
       /\ TermDocument p uri position = Returns [b1; b2]
       /\ Language b1 = markdown /\ Language b2 = yaml
       /\ HasPrefix (Value b1) ("## " +:+ Bigquery.FullID metadata) = true.
Proof.
  intros (Hcache & Hsearch) Htable Hname.
  unfold TermDocument, termOffsetOf, parsedFileOf in *.
  rewrite Hcache. cbv zeta. rewrite Hsearch, Htable.
  unfold createTableMarkedString. rewrite Hname.
  destruct (getTableMetadataFromPath p tablePath) as [metadata|e].
  - destruct (buildBigQueryTableMetadataMarkedString_shape p metadata)
      as [[e He] | (b1 & b2 & Hb & H1 & H2 & H3)]; rewrite ?He, ?Hb.
    + left. eexists. reflexivity.
    + right. exists metadata, b1, b2. repeat split; assumption.
  - left. eexists. reflexivity.
Qed.

Lemma table_hover_is_error_or_two_blocks_witness :
  exists sql targetNode tableNode b1 b2,
    locates encoded uri SelectAlias.overT sql targetNode
    /\ lookupNode Ast.TablePathExpressionKind targetNode = Some tableNode
    /\ createTableNameFromTablePathExpressionNode (Ast.self tableNode) = Some "t"
    /\ TermDocument encoded uri SelectAlias.overT = Returns [b1; b2]
    /\ Language b1 = markdown /\ Language b2 = yaml
    /\ ((exists err,
            TermDocument encoded uri SelectAlias.overT
            = Fails (Wrapf "failed to create table marked string: %w" err))
        \/ exists metadata b1 b2,
             getTableMetadataFromPath encoded "t" = Ok metadata
             /\ TermDocument encoded uri SelectAlias.overT = Returns [b1; b2]
             /\ Language b1 = markdown /\ Language b2 = yaml
             /\ HasPrefix (Value b1) ("## " +:+ Bigquery.FullID metadata) = true).
Proof.
  do 5 eexists.
  split; [split; evaluate|].
  split; [evaluate|].
  split; [evaluate|].
  split; [evaluate|].
  split; [reflexivity|]. split; [reflexivity|].
  eapply (table_hover_is_error_or_two_blocks encoded uri SelectAlias.overT);
    [split; evaluate | evaluate | evaluate].
Defined.





(** The hover reads the cache at its own URI only, and of the file only
    the text. *)
Lemma TermDocument_reads_own_text p (c1 c2 : gmap string File) uri position :
  RawText <$> (c1 !! uri) = RawText <$> (c2 !! uri) ->
  TermDocument (with_cache p c1) uri position
  = TermDocument (with_cache p c2) uri position.
Proof.
  intros H. unfold TermDocument. cbn [cache with_cache].
  destruct (c1 !! uri) as [sql1|], (c2 !! uri) as [sql2|];
    cbn in H; try discriminate; [|reflexivity].
  injection H as H. rewrite H. reflexivity.
Qed.

Lemma with_cache_same p : with_cache p (cache p) = p.
Proof. destruct p. reflexivity. Qed.

(** X21.  A hover reads the cache at its own URI only: updating or
    deleting another document does not change it. *)
Theorem hover_ignores_other_documents p uri other text version position :
  other <> uri ->
  TermDocument (UpdateFile p other text version) uri position
  = TermDocument p uri position
  /\ TermDocument (DeleteFile p other) uri position = TermDocument p uri position.
Proof.
  intros Hne. rewrite <- (with_cache_same p) at 2 4.
  unfold UpdateFile, DeleteFile. split.
  - apply TermDocument_reads_own_text. rewrite lookup_insert_ne by exact Hne.
    reflexivity.
  - apply TermDocument_reads_own_text. rewrite lookup_delete_ne by exact Hne.
    reflexivity.
Qed.

Lemma hover_ignores_other_documents_witness :
  "file:///other.sql" <> uri
  /\ TermDocument (UpdateFile (SelectAlias.project unknownTable)
                     "file:///other.sql" "SELECT 1" 7) uri SelectAlias.overX
     = TermDocument (SelectAlias.project unknownTable) uri SelectAlias.overX
  /\ TermDocument (DeleteFile (SelectAlias.project unknownTable)
                     "file:///other.sql") uri SelectAlias.overX
     = TermDocument (SelectAlias.project unknownTable) uri SelectAlias.overX.
Proof.
  split; [discriminate|].
  apply (hover_ignores_other_documents (SelectAlias.project unknownTable) uri
           "file:///other.sql" "SELECT 1" 7 SelectAlias.overX).
  discriminate.
Defined.

(** X22.  [GetFile] after [UpdateFile] returns the text put, after
    [DeleteFile] it reports not-found, and both leave every other path
    as [GetFile] saw it before. *)
Theorem document_cache_round_trips p path other text version :
  other <> path ->
  GetFile (UpdateFile p path text version) path = (text, true)
  /\ GetFile (DeleteFile p path) path = (EmptyString, false)
  /\ GetFile (DeleteFile (UpdateFile p path text version) path) path
     = (EmptyString, false)
  /\ GetFile (UpdateFile p path text version) other = GetFile p other
  /\ GetFile (DeleteFile p path) other = GetFile p other.
Proof.
  intros Hne. unfold GetFile, UpdateFile, DeleteFile. cbn [cache with_cache].
  rewrite lookup_insert_eq, !lookup_delete_eq.
  rewrite lookup_insert_ne, lookup_delete_ne by congruence.
  repeat split.
Qed.

Lemma document_cache_round_trips_witness :
  "file:///other.sql" <> uri
  /\ GetFile (UpdateFile (SelectAlias.project unknownTable) uri "SELECT 2" 3) uri
     = ("SELECT 2", true)
  /\ GetFile (DeleteFile (SelectAlias.project unknownTable) uri) uri
     = (EmptyString, false).
Proof.
  split; [discriminate|].
  destruct (document_cache_round_trips (SelectAlias.project unknownTable) uri
              "file:///other.sql" "SELECT 2" 3 ltac:(discriminate))
    as (H1 & H2 & _).
  split; assumption.
Defined.



End HoverMore.

Section HoverShape.
Import Strings Lsp Types Errors Source Samples.

Lemma selectColumnStrategy_shape p targetNode output termOffset blocks :
  selectColumnStrategy p targetNode output termOffset = Returns blocks ->
  hoverShape blocks.
Proof.
  unfold selectColumnStrategy, hoverShape.
  destruct (lookupNode _ _); [|intros [= <-]; left; reflexivity].
  destruct (getSelectColumnNodeToAnalyzedOutputCoumnNode _ _ _); try discriminate.
  destruct (getTableMetadataFromPath _ _) as [tm|e].
  - destruct (findField _ _); intros [= <-];
      [right; left; eexists; split; reflexivity | left; reflexivity].
  - intros [= <-]. right; left; eexists; split; reflexivity.
Qed.

Lemma columnRefStrategy_shape p output termOffset blocks :
  columnRefStrategy p output termOffset = Some (Returns blocks) ->
  hoverShape blocks.
Proof.
  unfold columnRefStrategy, hoverShape.
  destruct (searchResolvedAstNode _ _ _); [|discriminate].
  destruct (columnOf _); [|discriminate].
  destruct (getTableMetadataFromPath _ _) as [tm|e].
  - destruct (findField _ _); [|discriminate].
    intros [= <-]. right; left; eexists; split; reflexivity.
  - intros [= <-]. right; left; eexists; split; reflexivity.
Qed.

Lemma resolveInStatement_shape p parsedFile targetNode termOffset blocks :
  resolveInStatement p parsedFile targetNode termOffset = Returns blocks ->
  hoverShape blocks.
Proof.
  unfold resolveInStatement.
  destruct (FindTargetAnalyzeOutput _ _) as [output|];
    [|intros [= <-]; left; reflexivity].
  destruct (searchResolvedAstNode Rast.isFunctionCallNode _ _).
  { intros [= <-]. right; left; eexists; split; reflexivity. }
  destruct (searchResolvedAstNode Rast.isGetStructFieldNode _ _).
  { intros [= <-]. right; left; eexists; split; reflexivity. }
  destruct (columnRefStrategy p output termOffset) as [r|] eqn:Hcol.
  - intros ->. eapply columnRefStrategy_shape, Hcol.
  - apply selectColumnStrategy_shape.
Qed.

(** X20.  [TermDocument] never returns more than two blocks: a hover is
    empty, one markdown block, or a markdown block followed by a yaml
    block. *)
Theorem hover_returns_at_most_two_blocks p uri position blocks :
  TermDocument p uri position = Returns blocks -> hoverShape blocks.
Proof.
  unfold TermDocument.
  destruct (cache p !! uri) as [sql|]; [|discriminate]. cbv zeta.
  destruct (searchAstNode _ _ _) as [targetNode|];
    [|intros [= <-]; left; reflexivity].
  destruct (lookupNode Ast.TablePathExpressionKind targetNode) as [tableNode|];
    [|apply resolveInStatement_shape].
  unfold createTableMarkedString.
  destruct (createTableNameFromTablePathExpressionNode _);
    [|cbn; apply resolveInStatement_shape].
  destruct (getTableMetadataFromPath p _) as [metadata|e]; [|discriminate].
  destruct (buildBigQueryTableMetadataMarkedString_shape p metadata)
    as [[e He] | (b1 & b2 & Hb & H1 & H2 & _)]; rewrite ?He, ?Hb; [discriminate|].
  cbn. intros [= <-]. right; right. exists b1, b2. repeat split; assumption.
Qed.

Lemma hover_returns_at_most_two_blocks_witness :
  exists blocks,
    TermDocument encoded uri SelectAlias.overT = Returns blocks
    /\ length blocks = 2%nat
    /\ hoverShape blocks.
Proof.
  eexists. split; [evaluate|]. split; [reflexivity|].
  apply (hover_returns_at_most_two_blocks encoded uri SelectAlias.overT).
  evaluate.
Defined.

End HoverShape.

Section SchedulerMore.
Import Lsp Langserver.

Lemma diagnostic_snoc (requests : list DocumentURI) (uri : DocumentURI) :
  diagnostic (requests ++ [uri]) = afterRound (diagnostic requests) uri.
Proof. unfold diagnostic. rewrite fold_left_app. reflexivity. Qed.

(** The contexts are made in the order of the requests. *)
Lemma contexts_diagnostic (requests : list DocumentURI) :
  contexts (diagnostic requests) = requests.
Proof.
  induction requests as [|uri requests IH] using rev_ind; [reflexivity|].
  rewrite diagnostic_snoc.
  destruct (afterRound_fields uri (diagnostic requests)) as (_ & Hc & _).
  rewrite Hc, IH. reflexivity.
Qed.

(** X24.  The scheduler makes one context and starts one goroutine for
    every URI it receives, in the order received: no request is dropped
    or merged. *)
Theorem scheduler_starts_one_run_per_request (requests : list DocumentURI) :
  contexts (diagnostic requests) = requests
  /\ started (diagnostic requests) = imap (fun i uri => (i, uri)) requests.
Proof.
  split; [apply contexts_diagnostic|].
  induction requests as [|uri requests IH] using rev_ind; [reflexivity|].
  rewrite diagnostic_snoc.
  destruct (afterRound_fields uri (diagnostic requests)) as (_ & _ & _ & Hs).
  rewrite Hs, IH, contexts_diagnostic, imap_app. cbn [imap].
  rewrite Nat.add_0_r. reflexivity.
Qed.

(** A context is cancelled exactly when it is superseded. *)
Lemma cancelled_iff_superseded (requests : list DocumentURI) :
  forall c : CancelFunc, c ∈ cancelled (diagnostic requests) <-> superseded requests c.
Proof.
  induction requests as [|uri requests IH] using rev_ind; intros c.
  - split.
    + intros H. apply elem_of_empty in H. contradiction.
    + intros (u & j & H & _). rewrite lookup_nil in H. discriminate.
  - rewrite diagnostic_snoc.
    pose proof (settled_diagnostic requests) as [Hrun Hlt].
    pose proof (contexts_diagnostic requests) as Hctx.
    destruct (afterRound_fields uri (diagnostic requests)) as (_ & _ & Hx & _).
    destruct (cancelPrevious_fields uri (diagnostic requests)) as (_ & _ & _ & Hx').
    rewrite Hx, Hx'. clear Hx Hx'.
    unfold outstanding in Hrun. rewrite Hctx in Hrun, Hlt.
    split.
    + intros Hin.
      assert (Hcases : c ∈ cancelled (diagnostic requests)
                       \/ running (diagnostic requests) !! uri = Some c).
      { destruct (running (diagnostic requests) !! uri) as [old|]; [|left; exact Hin].
        apply elem_of_union in Hin as [Hin|Hin]; [|left; exact Hin].
        apply elem_of_singleton in Hin. right. subst. reflexivity. }
      destruct Hcases as [Hold|Hcur].
      * apply IH in Hold as (u & j & Hc & Hj & Hu).
        exists u, j. split; [apply lookup_app_l_Some; exact Hc|].
        split; [exact Hj | apply lookup_app_l_Some; exact Hu].
      * apply Hrun in Hcur as [Hc _].
        exists uri, (length requests).
        split; [apply lookup_app_l_Some; exact Hc|].
        split; [eapply lookup_lt_Some; exact Hc|].
        rewrite lookup_app_r by lia. rewrite Nat.sub_diag. reflexivity.
    + intros (u & j & Hc & Hj & Hu).
      assert (Hclt : (c < length requests)%nat).
      { apply lookup_lt_Some in Hu. rewrite length_app in Hu. cbn in Hu. lia. }
      rewrite lookup_app_l in Hc by exact Hclt.
      destruct (decide (j = length requests)) as [->|Hjne].
      * rewrite lookup_app_r in Hu by lia. rewrite Nat.sub_diag in Hu.
        injection Hu as <-.
        destruct (decide (c ∈ cancelled (diagnostic requests))) as [Hin|Hnin].
        -- destruct (running (diagnostic requests) !! uri); [|exact Hin].
           apply elem_of_union. right. exact Hin.
        -- pose proof (proj1 (Hrun uri c) (conj Hc Hnin)) as Hcur.
           rewrite Hcur. apply elem_of_union. left. apply elem_of_singleton.
           reflexivity.
      * assert (Hjlt : (j < length requests)%nat).
        { apply lookup_lt_Some in Hu. rewrite length_app in Hu. cbn in Hu. lia. }
        rewrite lookup_app_l in Hu by exact Hjlt.
        assert (Hin : c ∈ cancelled (diagnostic requests))
          by (apply IH; exists u, j; repeat split; assumption).
        destruct (running (diagnostic requests) !! uri); [|exact Hin].
        apply elem_of_union. right. exact Hin.
Qed.

(** X25.  After any sequence of requests, [running] holds for a URI the
    cancel function of the latest request for that URI and nothing for a
    URI never requested; and a context has been cancelled exactly when a
    later request named the same URI. *)
Theorem scheduler_last_request_wins (requests : list DocumentURI) :
  (forall (uri : DocumentURI) (c : CancelFunc),
      running (diagnostic requests) !! uri = Some c <-> latestFor requests uri c)
  /\ (forall c : CancelFunc,
        c ∈ cancelled (diagnostic requests) <-> superseded requests c).
Proof.
  split; [|apply cancelled_iff_superseded].
  intros uri c.
  pose proof (settled_diagnostic requests) as [Hrun _].
  pose proof (contexts_diagnostic requests) as Hctx.
  unfold outstanding in Hrun. rewrite Hctx in Hrun.
  rewrite <- Hrun. unfold latestFor.
  split.
  - intros [Hc Hlive]. split; [exact Hc|].
    intros j Hj Hu. apply Hlive. apply cancelled_iff_superseded.
    exists uri, j. repeat split; assumption.
  - intros [Hc Hlast]. split; [exact Hc|].
    intros Hin. apply cancelled_iff_superseded in Hin as (u & j & Hc' & Hj & Hu).
    rewrite Hc in Hc'. injection Hc' as <-. exact (Hlast j Hj Hu).
Qed.

(** X26.  A request for one URI leaves the other URIs alone: their
    entry in [running] is unchanged and none of their contexts is
    cancelled by it. *)
Theorem scheduler_request_leaves_other_uris (handled : list DocumentURI)
    (uri other : DocumentURI) :
  other <> uri ->
  running (diagnostic (handled ++ [uri])) !! other
  = running (diagnostic handled) !! other
  /\ forall c : CancelFunc,
       contexts (diagnostic handled) !! c = Some other ->
       (c ∈ cancelled (diagnostic (handled ++ [uri]))
        <-> c ∈ cancelled (diagnostic handled)).
Proof.
  intros Hne. rewrite diagnostic_snoc.
  pose proof (settled_diagnostic handled) as [Hrun _].
  destruct (afterRound_fields uri (diagnostic handled)) as (Hr & _ & Hx & _).
  destruct (cancelPrevious_fields uri (diagnostic handled)) as (_ & _ & _ & Hx').
  rewrite Hr, Hx, Hx'. split.
  - apply lookup_insert_ne. congruence.
  - intros c Hc.
    destruct (running (diagnostic handled) !! uri) as [old|] eqn:E; [|reflexivity].
    split.
    + intros Hin. apply elem_of_union in Hin as [Hin|Hin]; [|exact Hin].
      apply elem_of_singleton in Hin. subst old.
      apply Hrun in E. destruct E as [E _]. congruence.
    + intros Hin. apply elem_of_union. right. exact Hin.
Qed.

Lemma scheduler_request_leaves_other_uris_witness :
  ("b.sql" : DocumentURI) <> "a.sql"
  /\ running (diagnostic (["a.sql"; "b.sql"] ++ ["a.sql"])) !! "b.sql"
     = running (diagnostic ["a.sql"; "b.sql"]) !! "b.sql"
  /\ running (diagnostic ["a.sql"; "b.sql"]) !! "b.sql" = Some 1%nat.
Proof.
  split; [discriminate|].
  split; [|vm_compute; reflexivity].
  apply (scheduler_request_leaves_other_uris ["a.sql"; "b.sql"] "a.sql" "b.sql").
  discriminate.
Defined.

End SchedulerMore.

Section InitializeMore.
Import Errors Langserver.

(** X27.  [handleInitialize] installs a project only when it succeeds,
    rooted at the requested path, and answers with full document
    synchronisation.  Without params it answers invalid-params and
    changes nothing.  On a later failure it has already stored the
    connection, and the decoded params when the decoding succeeded, but
    keeps the project it had. *)
Theorem handleInitialize_installs_project_only_on_success
    Unmarshal methods NewGlobalCache h connection req :
  match handleInitialize Unmarshal methods NewGlobalCache h connection req with
  | (h', Result result) =>
      TextDocumentSyncKindOf result = Some TDSKFull
      /\ conn h' = Some connection
      /\ exists raw p,
           Params req = Some raw
           /\ Unmarshal raw = Ok (initializeParams h')
           /\ project h' = Some p
           /\ Source.rootPath p = RootPath (initializeParams h')
           /\ NewGlobalCache (RootPath (initializeParams h')) = Ok (Source.cache p)
  | (h', RpcError code) =>
      code = CodeInvalidParams /\ Params req = None /\ h' = h
  | (h', Failure err) =>
      project h' = project h /\ conn h' = Some connection
      /\ exists raw,
           Params req = Some raw
           /\ (Unmarshal raw = Err err /\ initializeParams h' = initializeParams h
               \/ exists params,
                    Unmarshal raw = Ok params /\ initializeParams h' = params
                    /\ NewGlobalCache (RootPath params) = Err err)
  end.
Proof.
  unfold handleInitialize.
  destruct (Params req) as [raw|]; [|repeat split].
  destruct (Unmarshal raw) as [params|err] eqn:Hdecode.
  - unfold Source.NewProject.
    destruct (NewGlobalCache (RootPath params)) as [c|err] eqn:Hcache.
    + cbn. split; [reflexivity|]. split; [reflexivity|].
      eexists raw, _. repeat split; try reflexivity; assumption.
    + cbn. split; [reflexivity|]. split; [reflexivity|].
      exists raw. split; [reflexivity|]. right. exists params. repeat split; assumption.
  - cbn. split; [reflexivity|]. split; [reflexivity|].
    exists raw. split; [reflexivity|]. left. split; [assumption | reflexivity].
Qed.

End InitializeMore.
